(** * India data-science job dashboard: the filter and the aggregates

    A shallow embedding of [app_india.py].  The script reads a table of job
    postings, narrows it with four sidebar controls and derives a fixed set
    of summaries from the narrowed table.  A data frame is embedded as the
    list of its rows, in index order, together with its column names; the
    pandas operations the script uses ([isin], [between], boolean-mask
    indexing, [median], [groupby], [value_counts], [sort_values], [head])
    are embedded as list functions with the same results.  What is handed
    to the page ([st.metric], the charts) is embedded as the value handed
    over; drawing is outside the model.

    Modelling choices.
    - A [float64] cell is an exact rational or [NaN] (a missing cell):
      comparisons, medians and the growth formula are exact, rounding
      error of the machine arithmetic and infinite cells are outside the
      model.
    - [job_title] and [company] may be missing, [job_category] and
      [seniority] may not; [min_experience_clean] is a whole number of
      years or missing; skill columns are boolean.
    - Where pandas leaves the order of equal keys open ([sort_values],
      [value_counts]) the embedding keeps their earlier order; the
      properties below do not depend on it.
    - [str.title] is embedded for ASCII column names. *)

From Stdlib Require Import List String Ascii ZArith QArith Qround Qabs Bool Lia.
From Stdlib Require Import DecimalString Lqa.
From Stdlib Require Import Sorting.Sorted Sorting.Permutation.
Import ListNotations.

Local Open Scope Z_scope.

(** ** Cells *)

Inductive float : Type :=
| NaN : float
| Fin : Q -> float.

Definition notna (x : float) : bool :=
  match x with NaN => false | Fin _ => true end.

(** [Series.between(left, right)]: [left <= x & x <= right], inclusive on
    both sides; a comparison with a missing cell is [False]. *)
Definition between (x : float) (left right : Q) : bool :=
  match x with
  | NaN => false
  | Fin q => Qle_bool left q && Qle_bool q right
  end.

Definition between_int (x : option Z) (left right : Z) : bool :=
  match x with
  | None => false
  | Some n => (left <=? n) && (n <=? right)
  end.

(** [x < y] on finite floats. *)
Definition Qlt_bool (x y : Q) : bool := negb (Qle_bool y x).

(** [Series.isin(values)]. *)
Definition isin (s : string) (values : list string) : bool :=
  existsb (String.eqb s) values.

(** ** Rows and tables

    The columns the script reads by name.  [job_title] and [company] are
    text cells that the CSV parser leaves missing when the field is empty;
    [job_category] and [seniority] are text ([sorted(unique())] over them
    is evaluated before anything else, which a missing cell would stop);
    [min_experience_clean] holds whole years or is missing; [cell] gives
    the boolean cell of any further column, by column name. *)
Record Row : Type := mkRow {
  job_title : option string;
  company : option string;
  job_category : string;
  seniority : string;
  avg_salary_lpa : float;
  min_experience_clean : option Z;
  cell : string -> bool
}.

Record DataFrame : Type := mkDF {
  columns : list string;
  rows : list Row
}.

(** [len(df)] *)
Definition len (df : DataFrame) : Z := Z.of_nat (List.length (rows df)).

(** [df[mask]]: the rows whose mask entry is true, in order; the columns
    are unchanged. *)
Definition select (mask : Row -> bool) (df : DataFrame) : DataFrame :=
  mkDF (columns df) (filter mask (rows df)).

(** ** The sidebar controls *)

Record FilterCriteria : Type := mkCriteria {
  selected_categories : list string;
  selected_seniority : string;
  salary_range : Q * Q;
  exp_range : Z * Z
}.

(** ** Apply filters (lines 64-71) *)

Definition base_mask (c : FilterCriteria) (r : Row) : bool :=
  isin (job_category r) (selected_categories c)
  && between (avg_salary_lpa r) (fst (salary_range c)) (snd (salary_range c))
  && between_int (min_experience_clean r) (fst (exp_range c)) (snd (exp_range c)).

Definition seniority_mask (c : FilterCriteria) (r : Row) : bool :=
  String.eqb (seniority r) (selected_seniority c).

Definition filtered_df (df : DataFrame) (c : FilterCriteria) : DataFrame :=
  let filtered := select (base_mask c) df in
  if negb (String.eqb (selected_seniority c) "All")
  then select (seniority_mask c) filtered
  else filtered.

(** ** Sorting

    [sort_by leb] is a stable insertion sort: an element is placed before
    the first later element it is [leb] to, so elements that compare equal
    keep their original order.  It stands for Python's [sorted] (which is
    stable, also under [reverse=True]) and for pandas' [sort_values] and
    [sort_index], whose order among equal keys pandas leaves open. *)
Section Sort.
Context {A : Type} (leb : A -> A -> bool).

Fixpoint insert_by (x : A) (l : list A) : list A :=
  match l with
  | [] => [x]
  | y :: l' => if leb x y then x :: l else y :: insert_by x l'
  end.

Fixpoint sort_by (l : list A) : list A :=
  match l with
  | [] => []
  | x :: l' => insert_by x (sort_by l')
  end.
End Sort.

(** [head(n)] *)
Definition head {A} (n : nat) (l : list A) : list A := firstn n l.

(** ** Series reductions *)

(** The non-missing values of a float column ([skipna]). *)
Definition dropna_float (xs : list float) : list Q :=
  flat_map (fun x => match x with NaN => [] | Fin q => [q] end) xs.

(** The non-missing values of any other column. *)
Definition dropna {K} (xs : list (option K)) : list K :=
  flat_map (fun x => match x with None => [] | Some k => [k] end) xs.

(** [Series.median()]: missing cells are skipped; the middle value of the
    sorted rest, or the mean of the two middle values; [NaN] when nothing
    is left. *)
Definition median (xs : list float) : float :=
  let v := sort_by Qle_bool (dropna_float xs) in
  let n := List.length v in
  match n with
  | O => NaN
  | _ => if Nat.odd n
         then Fin (nth (n / 2) v 0%Q)
         else Fin ((nth (n / 2 - 1) v 0%Q + nth (n / 2) v 0%Q) / 2)%Q
  end.

(** [Series.mean()] of a whole-number column, missing cells skipped. *)
Definition mean (xs : list (option Z)) : float :=
  let v := dropna xs in
  match v with
  | [] => NaN
  | _ => Fin (inject_Z (fold_right Z.add 0%Z v)
           / inject_Z (Z.of_nat (List.length v)))%Q
  end.

(** [Series.min()] and [Series.max()] of a float column. *)
Definition series_min (xs : list float) : float :=
  match sort_by Qle_bool (dropna_float xs) with
  | [] => NaN
  | q :: _ => Fin q
  end.

Definition series_max (xs : list float) : float :=
  match sort_by (fun a b => Qle_bool b a) (dropna_float xs) with
  | [] => NaN
  | q :: _ => Fin q
  end.

(** The order of [sort_values] on a float column: ascending, or descending
    under [ascending=False]; missing values go last either way. *)
Definition float_leb (a b : float) : bool :=
  match a, b with
  | _, NaN => true
  | NaN, Fin _ => false
  | Fin x, Fin y => Qle_bool x y
  end.

Definition float_geb (a b : float) : bool :=
  match a, b with
  | _, NaN => true
  | NaN, Fin _ => false
  | Fin x, Fin y => Qle_bool y x
  end.

(** ** Grouping and counting, over a key type with its equality and order *)
Section Keys.
Context {K : Type} (eqb leb : K -> K -> bool).

(** [Series.unique()]: the distinct values in order of first appearance. *)
Fixpoint unique (l : list K) : list K :=
  match l with
  | [] => []
  | x :: l' => x :: filter (fun y => negb (eqb y x)) (unique l')
  end.

(** The group keys of [groupby]: distinct non-missing values, sorted. *)
Definition group_keys (ks : list (option K)) : list K :=
  sort_by leb (unique (dropna ks)).

Definition has_key (key : Row -> option K) (k : K) (r : Row) : bool :=
  match key r with
  | None => false
  | Some k' => eqb k' k
  end.

(** The rows of one group. *)
Definition group (key : Row -> option K) (k : K) (df : DataFrame) : list Row :=
  filter (has_key key k) (rows df).

(** [df.groupby(key)['avg_salary_lpa'].median().reset_index()] *)
Definition groupby_median (key : Row -> option K) (df : DataFrame)
  : list (K * float) :=
  map (fun k => (k, median (map avg_salary_lpa (group key k df))))
      (group_keys (map key (rows df))).

(** Number of cells equal to [k]. *)
Definition occurrences (k : K) (xs : list (option K)) : Z :=
  Z.of_nat (List.length
    (filter (fun x => match x with None => false | Some k' => eqb k' k end) xs)).

(** [Series.value_counts()]: every distinct non-missing value with its
    number of occurrences, most frequent first. *)
Definition value_counts (xs : list (option K)) : list (K * Z) :=
  sort_by (fun a b => snd b <=? snd a)
          (map (fun k => (k, occurrences k xs)) (unique (dropna xs))).

(** [.sort_index()] on such a table. *)
Definition sort_index (t : list (K * Z)) : list (K * Z) :=
  sort_by (fun a b => leb (fst a) (fst b)) t.

(** [Series.nunique()] *)
Definition nunique (xs : list (option K)) : Z :=
  Z.of_nat (List.length (unique (dropna xs))).
End Keys.

(** ** Salary by seniority (lines 121-122) *)

Definition salary_by_seniority (fdf : DataFrame) : list (string * float) :=
  sort_by (fun a b => float_leb (snd a) (snd b))
    (groupby_median String.eqb String.leb (fun r => Some (seniority r)) fdf).

(** ** Salary by job category (lines 140-144) *)

Record CatSalary : Type := mkCatSalary {
  cs_job_category : string;
  cs_avg_salary_lpa : float;
  cs_count : Z
}.

(** The [count] aggregation of a column: its non-missing cells. *)
Definition count_cells {K} (xs : list (option K)) : Z :=
  Z.of_nat (List.length (dropna xs)).

Definition category_group (k : string) (fdf : DataFrame) : list Row :=
  group String.eqb (fun r => Some (job_category r)) k fdf.

Definition cat_salary_grouped (fdf : DataFrame) : list CatSalary :=
  map (fun k =>
         let g := category_group k fdf in
         mkCatSalary k (median (map avg_salary_lpa g))
                     (count_cells (map job_title g)))
      (group_keys String.eqb String.leb
                  (map (fun r => Some (job_category r)) (rows fdf))).

Definition cat_salary (fdf : DataFrame) : list CatSalary :=
  head 10
    (sort_by (fun a b => float_geb (cs_avg_salary_lpa a) (cs_avg_salary_lpa b))
       (filter (fun e => 5 <=? cs_count e) (cat_salary_grouped fdf))).

(** ** Skills (lines 166-181) *)

(** [str.replace(old, new)], every occurrence, left to right, for a
    non-empty [old]: after a match the remaining characters of the
    occurrence are skipped. *)
Fixpoint replace_from (skip : nat) (old new s : string) : string :=
  match s with
  | EmptyString => EmptyString
  | String ch s' =>
      match skip with
      | S k => replace_from k old new s'
      | O =>
          if String.prefix old s
          then new ++ replace_from (String.length old - 1) old new s'
          else String ch (replace_from 0 old new s')
      end
  end.

Definition replace (old new s : string) : string := replace_from 0 old new s.

Definition is_lower (ch : ascii) : bool :=
  ((97 <=? N_of_ascii ch) && (N_of_ascii ch <=? 122))%N.

Definition is_upper (ch : ascii) : bool :=
  ((65 <=? N_of_ascii ch) && (N_of_ascii ch <=? 90))%N.

Definition to_upper (ch : ascii) : ascii :=
  if is_lower ch then ascii_of_N (N_of_ascii ch - 32) else ch.

Definition to_lower (ch : ascii) : ascii :=
  if is_upper ch then ascii_of_N (N_of_ascii ch + 32) else ch.

(** [str.title()] on ASCII text: a letter that follows a letter is
    lower-cased, any other letter is upper-cased, other characters are
    kept. *)
Fixpoint title_from (prev_cased : bool) (s : string) : string :=
  match s with
  | EmptyString => EmptyString
  | String ch s' =>
      if is_lower ch || is_upper ch
      then String (if prev_cased then to_lower ch else to_upper ch)
                  (title_from true s')
      else String ch (title_from false s')
  end.

Definition title (s : string) : string := title_from false s.

Definition skill_cols (fdf : DataFrame) : list string :=
  filter (String.prefix "skill_") (columns fdf).

Definition skill_name (col : string) : string :=
  title (replace "_" " " (replace "skill_" "" col)).

(** [filtered_df[col].sum()] of a boolean column. *)
Definition column_sum (col : string) (fdf : DataFrame) : Z :=
  Z.of_nat (List.length (filter (fun r => cell r col) (rows fdf))).

(** [d[k] = v] on a dict, kept as the list of its items in insertion
    order: an existing key keeps its place and takes the new value. *)
Fixpoint dict_set (d : list (string * Z)) (k : string) (v : Z)
  : list (string * Z) :=
  match d with
  | [] => [(k, v)]
  | (k', v') :: d' =>
      if String.eqb k' k then (k', v) :: d' else (k', v') :: dict_set d' k v
  end.

Definition skill_counts (fdf : DataFrame) : list (string * Z) :=
  fold_left
    (fun d col =>
       let count := column_sum col fdf in
       if 0 <? count then dict_set d (skill_name col) count else d)
    (skill_cols fdf) [].

Definition top_skills (fdf : DataFrame) : list (string * Z) :=
  head 12 (sort_by (fun a b => snd b <=? snd a) (skill_counts fdf)).

(** Round half to even, to a whole number. *)
Definition rint (q : Q) : Z :=
  let f := Qfloor q in
  match Qcompare (q - inject_Z f) (1 # 2) with
  | Lt => f
  | Gt => f + 1
  | Eq => if Z.even f then f else f + 1
  end.

(** [.round(1)] *)
Definition round1 (q : Q) : Q := (inject_Z (rint (q * 10)) / 10)%Q.

Record SkillRow : Type := mkSkillRow {
  sk_Skill : string;
  sk_Count : Z;
  sk_Percentage : Q
}.

(** The frame built under [if len(top_skills) > 0]; [None] is the [else]
    branch, where only a notice is shown. *)
Definition skills_df (fdf : DataFrame) : option (list SkillRow) :=
  match top_skills fdf with
  | [] => None
  | ts =>
      Some (map (fun kv =>
                   mkSkillRow (fst kv) (snd kv)
                     (round1 (inject_Z (snd kv) / inject_Z (len fdf) * 100)))
                ts)
  end.

(** ** Frequency tables (lines 220, 236, 258, 284) *)

Definition job_cats (fdf : DataFrame) : list (string * Z) :=
  head 8 (value_counts String.eqb
            (map (fun r => Some (job_category r)) (rows fdf))).

Definition seniority_dist (fdf : DataFrame) : list (string * Z) :=
  value_counts String.eqb (map (fun r => Some (seniority r)) (rows fdf)).

Definition top_companies (fdf : DataFrame) : list (string * Z) :=
  head 15 (value_counts String.eqb (map company (rows fdf))).

Definition exp_dist (fdf : DataFrame) : list (Z * Z) :=
  head 15 (sort_index Z.leb
             (value_counts Z.eqb (map min_experience_clean (rows fdf)))).

(** ** Salary against experience (lines 300-301) *)

Definition exp_salary (fdf : DataFrame) : list (Z * float) :=
  filter (fun e => fst e <=? 15)
         (groupby_median Z.eqb Z.leb min_experience_clean fdf).

(** ** Salary growth (lines 355-360) *)

Definition level_salaries (level : string) (fdf : DataFrame) : list float :=
  map avg_salary_lpa
      (rows (select (fun r => String.eqb (seniority r) level) fdf)).

Definition junior_sal (fdf : DataFrame) : float :=
  median (level_salaries "Junior" fdf).

Definition senior_sal (fdf : DataFrame) : float :=
  median (level_salaries "Senior" fdf).

(** [Some growth_pct] when the guarded block runs, [None] when it is
    skipped. *)
Definition growth_pct (fdf : DataFrame) : option Q :=
  match junior_sal fdf, senior_sal fdf with
  | Fin j, Fin s =>
      if Qlt_bool 0 j then Some ((s - j) / j * 100)%Q else None
  | _, _ => None
  end.

(** ** Header metrics and key insights (lines 79-91, 323-345) *)

(** [str(n)] of a non-negative integer. *)
Definition digits (n : Z) : string :=
  NilZero.string_of_uint (N.to_uint (Z.to_N n)).

(** The format [:.1f]: one decimal, the exact value rounded half to even;
    a missing value prints as [nan]. *)
Definition format_1f (x : float) : string :=
  match x with
  | NaN => "nan"
  | Fin q =>
      let t := rint (Qabs q * 10) in
      (if Qlt_bool q 0 then "-" else "")
        ++ digits (t / 10) ++ "." ++ digits (t mod 10)
  end.

Definition rupee : string := "₹".

Definition median_salary (fdf : DataFrame) : float :=
  median (map avg_salary_lpa (rows fdf)).

Definition avg_exp (fdf : DataFrame) : float :=
  mean (map min_experience_clean (rows fdf)).

Definition unique_companies (fdf : DataFrame) : Z :=
  nunique String.eqb (map company (rows fdf)).

(** The four values handed to [st.metric] in the header row. *)
Record Metrics : Type := mkMetrics {
  m_total_jobs : string;
  m_median_salary : string;
  m_unique_companies : string;
  m_avg_experience : string
}.

Definition main_metrics (fdf : DataFrame) : Metrics :=
  mkMetrics
    (digits (len fdf))
    (rupee ++ format_1f (median_salary fdf) ++ " LPA")
    (digits (unique_companies fdf))
    (format_1f (avg_exp fdf) ++ " yrs").

(** The per-level metric of the insights column, shown only under
    [if len(level_data) > 0]. *)
Definition level_metric (level : string) (fdf : DataFrame)
  : option (string * string) :=
  let level_data := level_salaries level fdf in
  if (0 <? Z.of_nat (List.length level_data))
  then Some ((rupee ++ format_1f (median level_data) ++ "L")%string,
             (digits (Z.of_nat (List.length level_data)) ++ " jobs")%string)
  else None.

(** [Series.mode()]: the most frequent values, sorted. *)
Definition mode (xs : list (option string)) : list string :=
  let vc := map (fun k => (k, occurrences String.eqb k xs))
                (group_keys String.eqb String.leb xs) in
  let top := fold_right Z.max 0 (map snd vc) in
  map fst (filter (fun e => snd e =? top) vc).

(** [mode()[0] if len(filtered_df) > 0 else "N/A"]; [None] stands for the
    lookup of position 0 raising. *)
Definition top_cat (fdf : DataFrame) : option string :=
  if 0 <? len fdf
  then hd_error (mode (map (fun r => Some (job_category r)) (rows fdf)))
  else Some "N/A"%string.

(** The salary-range line, written only when some salary is present. *)
Definition salary_range_text (fdf : DataFrame) : option string :=
  let sal := map avg_salary_lpa (rows fdf) in
  if 0 <? Z.of_nat (List.length (filter notna sal))
  then Some (rupee ++ format_1f (series_min sal) ++ "L - "
             ++ rupee ++ format_1f (series_max sal) ++ "L")%string
  else None.

(** ** Market composition (lines 366-369) *)

(** [a / b] on Python integers; [None] stands for [ZeroDivisionError]. *)
Definition py_div (a b : Z) : option Q :=
  if b =? 0 then None else Some (inject_Z a / inject_Z b)%Q.

(** The loop body, once per category, stopping at the first error. *)
Fixpoint market_lines (fdf : DataFrame) (cats : list string)
  : option (list (string * Q)) :=
  match cats with
  | [] => Some []
  | cat :: cats' =>
      let count := len (select (fun r => String.eqb (job_category r) cat) fdf) in
      match py_div count (len fdf) with
      | None => None
      | Some share =>
          match market_lines fdf cats' with
          | None => None
          | Some lines => Some ((cat, share * 100)%Q :: lines)
          end
      end
  end.

Definition market_composition (fdf : DataFrame) : option (list (string * Q)) :=
  market_lines fdf
    (map fst (head 3 (value_counts String.eqb
                        (map (fun r => Some (job_category r)) (rows fdf))))).

(** ** Sidebar controls (lines 37-61) *)

(** [sorted(df['job_category'].unique().tolist())] *)
Definition all_categories (df : DataFrame) : list string :=
  sort_by String.leb (unique String.eqb (map job_category (rows df))).

(** The preselected categories, [all_categories[:3]]. *)
Definition default_categories (df : DataFrame) : list string :=
  head 3 (all_categories df).

Definition seniority_options (df : DataFrame) : list string :=
  "All"%string :: sort_by String.leb (unique String.eqb (map seniority (rows df))).

Definition min_sal (df : DataFrame) : float :=
  series_min (map avg_salary_lpa (rows df)).

Definition max_sal (df : DataFrame) : float :=
  series_max (map avg_salary_lpa (rows df)).

(** [int(df['min_experience_clean'].max())]; [None] stands for [int]
    raising on the missing maximum of a column without values. *)
Definition max_exp (df : DataFrame) : option Z :=
  match sort_by (fun a b => b <=? a) (dropna (map min_experience_clean (rows df))) with
  | [] => None
  | n :: _ => Some n
  end.

(** ** Must-have skills and top category count (lines 330-338) *)

(** [d[k]] on a dict; [None] stands for [KeyError]. *)
Fixpoint dict_get (d : list (string * Z)) (k : string) : option Z :=
  match d with
  | [] => None
  | (k', v) :: d' => if String.eqb k' k then Some v else dict_get d' k
  end.

Definition top_3 (fdf : DataFrame) : list string :=
  let keys := map fst (top_skills fdf) in
  if (3 <=? List.length keys)%nat then firstn 3 keys else keys.

(** The loop over [top_3]: each skill with its share of the view, read
    back from the dictionary; [None] when a lookup fails. *)
Fixpoint must_have_lines (fdf : DataFrame) (skills : list string)
  : option (list (string * Q)) :=
  match skills with
  | [] => Some []
  | skill :: skills' =>
      match dict_get (top_skills fdf) skill with
      | None => None
      | Some count =>
          match must_have_lines fdf skills' with
          | None => None
          | Some lines =>
              Some ((skill, inject_Z count / inject_Z (len fdf) * 100)%Q :: lines)
          end
      end
  end.

Definition must_have_skills (fdf : DataFrame) : option (list (string * Q)) :=
  must_have_lines fdf (top_3 fdf).

(** [len(filtered_df[filtered_df['job_category'] == top_cat])] *)
Definition top_cat_count (fdf : DataFrame) : option Z :=
  match top_cat fdf with
  | None => None
  | Some cat => Some (len (select (fun r => String.eqb (job_category r) cat) fdf))
  end.

(** * Vocabulary of the statements

    Propositions and sample data used to state the properties; none of
    them is part of the script. *)

(** The four predicates of the filter, as propositions about one row. *)
Definition category_ok (c : FilterCriteria) (r : Row) : Prop :=
  In (job_category r) (selected_categories c).

Definition salary_ok (c : FilterCriteria) (r : Row) : Prop :=
  exists q, avg_salary_lpa r = Fin q /\
            (fst (salary_range c) <= q)%Q /\ (q <= snd (salary_range c))%Q.

Definition experience_ok (c : FilterCriteria) (r : Row) : Prop :=
  exists n, min_experience_clean r = Some n /\
            fst (exp_range c) <= n /\ n <= snd (exp_range c).

Definition seniority_ok (c : FilterCriteria) (r : Row) : Prop :=
  selected_seniority c = "All"%string \/ seniority r = selected_seniority c.

Definition satisfies (c : FilterCriteria) (r : Row) : Prop :=
  category_ok c r /\ salary_ok c r /\ experience_ok c r /\ seniority_ok c r.

(** The same conjunction as one boolean mask. *)
Definition full_mask (c : FilterCriteria) (r : Row) : bool :=
  base_mask c r
  && (String.eqb (selected_seniority c) "All" || seniority_mask c r).

(** Equality of float cells up to the representation of the rational. *)
Definition float_eq (a b : float) : Prop :=
  match a, b with
  | NaN, NaN => True
  | Fin x, Fin y => (x == y)%Q
  | _, _ => False
  end.

(** The criteria of the worked example. *)
Definition example_criteria : FilterCriteria :=
  mkCriteria ["Data Analyst"; "Data Scientist"]%string "All" (5, 20)%Q (0, 10).

(** A list cut by [head]: the part kept is a prefix of the given length. *)
Definition prefix_of {A} (n : nat) (t full : list A) : Prop :=
  List.length t = Nat.min n (List.length full)
  /\ exists rest, full = t ++ rest.




(** [t] lists every distinct non-missing value of [xs] once, with the
    number of its occurrences. *)
Definition counts_of {K} (eqb : K -> K -> bool) (xs : list (option K))
  (t : list (K * Z)) : Prop :=
  NoDup (map fst t)
  /\ (forall k, In k (map fst t) <-> In (Some k) xs)
  /\ (forall k n, In (k, n) t -> n = occurrences eqb k xs /\ 0 < n).

(** Most frequent first; smallest value first, no value twice. *)
Definition by_count_desc {K} (t : list (K * Z)) : Prop :=
  StronglySorted (fun a b => snd b <= snd a) t.



(** Number of rows of a view in one job category. *)
Definition rows_in_category (k : string) (fdf : DataFrame) : Z :=
  Z.of_nat (List.length
    (filter (fun r => String.eqb (job_category r) k) (rows fdf))).


(** The rows of a view at one seniority level. *)
Definition level_rows (level : string) (fdf : DataFrame) : list Row :=
  filter (fun r => String.eqb (seniority r) level) (rows fdf).


(** A dictionary item that is the sum of one skill column of the view. *)
Definition skill_entry_ok (fdf : DataFrame) (e : string * Z) : Prop :=
  exists col, In col (columns fdf) /\ String.prefix "skill_" col = true
              /\ fst e = skill_name col /\ snd e = column_sum col fdf.

(** A small table on which the conditional properties are exercised. *)
Definition posting (title category level : string) (salary : Q) (years : Z)
  (skills : list string) : Row :=
  mkRow (Some title) (Some "Acme"%string) category level (Fin salary)
        (Some years) (fun col => isin col skills).

Definition sample_df : DataFrame :=
  mkDF ["job_title"; "company"; "job_category"; "seniority";
        "avg_salary_lpa"; "min_experience_clean";
        "skill_python"; "skill_sql"]%string
       [ posting "Analyst I" "Data Analyst" "Junior" 6 1 ["skill_python"; "skill_sql"];
         posting "Analyst II" "Data Analyst" "Junior" 8 2 ["skill_sql"];
         posting "Analyst III" "Data Analyst" "Mid-Level" 10 3 ["skill_python"];
         posting "Analyst IV" "Data Analyst" "Mid-Level" 12 4 ["skill_sql"];
         posting "Analyst V" "Data Analyst" "Senior" 18 7 ["skill_python"];
         posting "Scientist" "Data Scientist" "Senior" 25 8 ["skill_python"];
         posting "Lead" "Data Scientist" "Senior" 40 16 [] ]%string.

Definition sample_criteria : FilterCriteria :=
  mkCriteria ["Data Analyst"; "Data Scientist"]%string "All" (5, 30)%Q (0, 20).

(** The state of the controls when the page is first shown: the first
    three categories, "All", and both sliders at their full range. *)
Definition initial_criteria (df : DataFrame) (lo hi : Q) (mx : Z)
  : FilterCriteria :=
  mkCriteria (default_categories df) "All" (lo, hi) (0, mx).

(** The character occurs in the text. *)
Fixpoint has_char (ch : ascii) (s : string) : bool :=
  match s with
  | EmptyString => false
  | String c s' => Ascii.eqb c ch || has_char ch s'
  end.

(** The counts of a frequency table, added up. *)
Definition sum_counts {K} (t : list (K * Z)) : Z :=
  fold_right Z.add 0 (map snd t).

(** Ascending order of texts, as [sorted] leaves them. *)
Definition by_name_asc (l : list string) : Prop :=
  StronglySorted (fun a b => String.leb a b = true) l.

(** [c'] asks for no more than [c]: more categories, wider intervals, and
    the same seniority or "All". *)
Definition relaxes (c' c : FilterCriteria) : Prop :=
  incl (selected_categories c) (selected_categories c')
  /\ (fst (salary_range c') <= fst (salary_range c))%Q
  /\ (snd (salary_range c) <= snd (salary_range c'))%Q
  /\ fst (exp_range c') <= fst (exp_range c)
  /\ snd (exp_range c) <= snd (exp_range c')
  /\ (selected_seniority c' = "All"%string
      \/ selected_seniority c' = selected_seniority c).

(** * Properties *)

(** ** Facts about the masks *)

Lemma isin_In s values : isin s values = true <-> In s values.
Proof.
  unfold isin. rewrite existsb_exists. split.
  - intros [x [Hx He]]. apply String.eqb_eq in He. now subst.
  - intros H. exists s. split; [assumption | apply String.eqb_refl].
Qed.

Lemma between_spec x left right :
  between x left right = true <->
  exists q, x = Fin q /\ (left <= q)%Q /\ (q <= right)%Q.
Proof.
  destruct x as [|q]; simpl.
  - split; [discriminate | intros [q [H _]]; discriminate].
  - rewrite andb_true_iff, !Qle_bool_iff. split.
    + intros [H1 H2]. now exists q.
    + intros [q' [Hq [H1 H2]]]. injection Hq as ->. now split.
Qed.

Lemma between_int_spec x left right :
  between_int x left right = true <->
  exists n, x = Some n /\ left <= n /\ n <= right.
Proof.
  destruct x as [n|]; simpl.
  - rewrite andb_true_iff, !Z.leb_le. split.
    + intros [H1 H2]. now exists n.
    + intros [n' [Hn [H1 H2]]]. injection Hn as ->. now split.
  - split; [discriminate | intros [n [H _]]; discriminate].
Qed.

Lemma full_mask_spec c r : full_mask c r = true <-> satisfies c r.
Proof.
  unfold full_mask, base_mask, seniority_mask, satisfies,
    category_ok, salary_ok, experience_ok, seniority_ok.
  rewrite !andb_true_iff, orb_true_iff, isin_In, between_spec,
    between_int_spec, !String.eqb_eq.
  tauto.
Qed.

Lemma filter_filter_and {A} (f g : A -> bool) (l : list A) :
  filter g (filter f l) = filter (fun x => f x && g x) l.
Proof.
  induction l as [|a l IH]; simpl; [reflexivity|].
  destruct (f a); simpl; [destruct (g a)|]; now rewrite IH.
Qed.

Lemma filter_idem {A} (f : A -> bool) (l : list A) :
  filter f (filter f l) = filter f l.
Proof.
  rewrite filter_filter_and. apply filter_ext. intros a. now destruct (f a).
Qed.

Lemma filtered_df_rows df c :
  rows (filtered_df df c) = filter (full_mask c) (rows df).
Proof.
  unfold filtered_df, full_mask.
  destruct (String.eqb (selected_seniority c) "All"); simpl.
  - apply filter_ext. intros r. now rewrite andb_true_r.
  - apply filter_filter_and.
Qed.

Lemma filtered_df_columns df c : columns (filtered_df df c) = columns df.
Proof.
  unfold filtered_df.
  now destruct (negb (String.eqb (selected_seniority c) "All")).
Qed.

(** ** The filter (C1, C7) *)

Lemma full_mask_false c r :
  full_mask c r = false ->
  ~ category_ok c r \/ ~ salary_ok c r \/ ~ experience_ok c r
  \/ ~ seniority_ok c r.
Proof.
  intros Hm.
  destruct (isin (job_category r) (selected_categories c)) eqn:E1.
  2:{ left. unfold category_ok. rewrite <- isin_In. congruence. }
  destruct (between (avg_salary_lpa r) (fst (salary_range c))
                    (snd (salary_range c))) eqn:E2.
  2:{ right; left. unfold salary_ok. rewrite <- between_spec. congruence. }
  destruct (between_int (min_experience_clean r) (fst (exp_range c))
                        (snd (exp_range c))) eqn:E3.
  2:{ right; right; left. unfold experience_ok.
      rewrite <- between_int_spec. congruence. }
  right; right; right. intros Hs.
  assert (Hf : full_mask c r = true).
  { apply full_mask_spec. repeat split; trivial.
    - now apply isin_In.
    - now apply between_spec.
    - now apply between_int_spec. }
  congruence.
Qed.

Lemma empty_selection_rows df sen sal ex :
  rows (filtered_df df (mkCriteria [] sen sal ex)) = [].
Proof.
  rewrite filtered_df_rows.
  induction (rows df) as [|r l IH]; [reflexivity|].
  simpl. unfold full_mask at 1, base_mask. simpl. exact IH.
Qed.

(** C1.  The filtered view is the table's rows, in order, that pass the
    conjunction of the four tests: category in the selected set, salary in
    the closed salary interval, experience in the closed experience
    interval, and seniority equal to the selector unless the selector is
    "All".  A row is kept exactly when it is a row of the table satisfying
    all four; a row of the table that is not kept fails at least one; and
    an empty category selection leaves no row. *)
Theorem filtered_view_exact (df : DataFrame) (c : FilterCriteria) :
  rows (filtered_df df c) = filter (full_mask c) (rows df)
  /\ columns (filtered_df df c) = columns df
  /\ (forall r, full_mask c r = true <-> satisfies c r)
  /\ (forall r, In r (rows (filtered_df df c)) <->
                In r (rows df) /\ satisfies c r)
  /\ (forall r, In r (rows df) ->
                In r (rows (filtered_df df c))
                \/ ~ category_ok c r \/ ~ salary_ok c r
                \/ ~ experience_ok c r \/ ~ seniority_ok c r)
  /\ (forall sen sal ex,
         rows (filtered_df df (mkCriteria [] sen sal ex)) = []).
Proof.
  split; [apply filtered_df_rows|].
  split; [apply filtered_df_columns|].
  split; [apply full_mask_spec|].
  split; [|split].
  - intros r. rewrite filtered_df_rows, filter_In, full_mask_spec. tauto.
  - intros r Hr. rewrite filtered_df_rows, filter_In.
    destruct (full_mask c r) eqn:E; [left; now split|].
    right. now apply full_mask_false.
  - apply empty_selection_rows.
Qed.

Lemma DataFrame_eq (a b : DataFrame) :
  columns a = columns b -> rows a = rows b -> a = b.
Proof. destruct a, b; simpl; intros -> ->; reflexivity. Qed.

(** C7.  Filtering a filtered view again with the same criteria gives the
    same view. *)
Theorem filtered_df_idempotent (df : DataFrame) (c : FilterCriteria) :
  filtered_df (filtered_df df c) c = filtered_df df c.
Proof.
  apply DataFrame_eq.
  - now rewrite !filtered_df_columns.
  - rewrite filtered_df_rows. rewrite filtered_df_rows. apply filter_idem.
Qed.

(** ** The worked example (C9) *)

(** C9.  On the three postings (Data Analyst, Junior, 6 LPA, 1 yr),
    (Data Scientist, Senior, 25 LPA, 8 yr), (Data Analyst, Mid-Level,
    10 LPA, 3 yr), whatever their titles, companies and skill cells, the
    criteria {Data Analyst, Data Scientist}, "All", [5,20], [0,10] keep
    exactly the first and the third, the count is 2, the median salary is
    8 and it is shown as 8.0. *)
Theorem worked_example
  (t1 t2 t3 co1 co2 co3 : option string) (k1 k2 k3 : string -> bool)
  (cols : list string) :
  let p1 := mkRow t1 co1 "Data Analyst" "Junior" (Fin 6) (Some 1) k1 in
  let p2 := mkRow t2 co2 "Data Scientist" "Senior" (Fin 25) (Some 8) k2 in
  let p3 := mkRow t3 co3 "Data Analyst" "Mid-Level" (Fin 10) (Some 3) k3 in
  let fdf := filtered_df (mkDF cols [p1; p2; p3]) example_criteria in
  rows fdf = [p1; p3]
  /\ between (avg_salary_lpa p2) 5 20 = false
  /\ len fdf = 2
  /\ m_total_jobs (main_metrics fdf) = "2"%string
  /\ float_eq (median_salary fdf) (Fin 8)
  /\ m_median_salary (main_metrics fdf) = (rupee ++ "8.0 LPA")%string.
Proof.
  intros p1 p2 p3 fdf.
  repeat split; vm_compute; reflexivity.
Qed.

(** ** Sorting: permutation and order *)

Section SortFacts.
Context {A : Type} (leb : A -> A -> bool).

Lemma insert_by_perm x l : Permutation (insert_by leb x l) (x :: l).
Proof.
  induction l as [|y l IH]; simpl; [reflexivity|].
  destruct (leb x y); [reflexivity|].
  rewrite IH. apply perm_swap.
Qed.

Lemma sort_by_perm l : Permutation (sort_by leb l) l.
Proof.
  induction l as [|x l IH]; simpl; [reflexivity|].
  rewrite insert_by_perm. now constructor.
Qed.

Lemma sort_by_In x l : In x (sort_by leb l) <-> In x l.
Proof.
  split; apply Permutation_in;
    [apply sort_by_perm | symmetry; apply sort_by_perm].
Qed.

Lemma sort_by_length l : List.length (sort_by leb l) = List.length l.
Proof. apply Permutation_length, sort_by_perm. Qed.


Lemma sort_by_map_NoDup {B} (f : A -> B) l :
  NoDup (map f l) -> NoDup (map f (sort_by leb l)).
Proof.
  apply Permutation_NoDup, Permutation_map. symmetry. apply sort_by_perm.
Qed.

Hypothesis leb_total : forall a b, leb a b = true \/ leb b a = true.
Hypothesis leb_trans :
  forall a b c, leb a b = true -> leb b c = true -> leb a c = true.

Local Abbreviation le := (fun a b : A => leb a b = true).

Lemma insert_by_sorted x l :
  StronglySorted le l -> StronglySorted le (insert_by leb x l).
Proof.
  induction 1 as [|y l Hs IH Hy]; simpl.
  - repeat constructor.
  - destruct (leb x y) eqn:E.
    + constructor; [now constructor|].
      constructor; [exact E|].
      rewrite Forall_forall in *. intros z Hz.
      apply leb_trans with y; [exact E | now apply Hy].
    + constructor; [exact IH|].
      rewrite Forall_forall in *. intros z Hz.
      apply (Permutation_in _ (insert_by_perm x l)) in Hz.
      destruct Hz as [<-|Hz]; [|now apply Hy].
      destruct (leb_total x y) as [H|H]; [congruence|exact H].
Qed.

Lemma sort_by_sorted l : StronglySorted le (sort_by leb l).
Proof.
  induction l as [|x l IH]; simpl; [constructor|].
  now apply insert_by_sorted.
Qed.
End SortFacts.

Lemma head_prefix_of {A} n (l : list A) : prefix_of n (head n l) l.
Proof.
  unfold prefix_of, head. split.
  - apply length_firstn.
  - exists (skipn n l). symmetry. apply firstn_skipn.
Qed.



Lemma head_In {A} n (l : list A) x : In x (head n l) -> In x l.
Proof.
  unfold head. intros H. rewrite <- (firstn_skipn n l).
  apply in_or_app. now left.
Qed.

Lemma head_length_le {A} n (l : list A) : (List.length (head n l) <= n)%nat.
Proof. unfold head. rewrite length_firstn. apply Nat.le_min_l. Qed.

(** ** Missing cells and the median *)

Lemma dropna_float_In q xs : In q (dropna_float xs) <-> In (Fin q) xs.
Proof.
  unfold dropna_float. rewrite in_flat_map. split.
  - intros [[|q'] [Hx Hq]]; simpl in Hq; [contradiction|].
    destruct Hq as [->|[]]. exact Hx.
  - intros H. exists (Fin q). split; [exact H | now left].
Qed.

Lemma dropna_In {K} (k : K) xs : In k (dropna xs) <-> In (Some k) xs.
Proof.
  unfold dropna. rewrite in_flat_map. split.
  - intros [[k'|] [Hx Hk]]; simpl in Hk; [|contradiction].
    destruct Hk as [->|[]]. exact Hx.
  - intros H. exists (Some k). split; [exact H | now left].
Qed.

Lemma dropna_map_Some {K A} (f : A -> K) (l : list A) :
  dropna (map (fun a => Some (f a)) l) = map f l.
Proof. induction l as [|a l IH]; simpl; [reflexivity | now rewrite IH]. Qed.

Lemma median_NaN_iff xs : median xs = NaN <-> dropna_float xs = [].
Proof.
  unfold median. rewrite sort_by_length.
  destruct (dropna_float xs) as [|q l]; simpl; [tauto|].
  split; [|discriminate].
  destruct (Nat.odd (List.length l)); simpl;
    destruct (Nat.odd (S (List.length l))); discriminate.
Qed.

Lemma median_finite xs :
  dropna_float xs <> [] -> exists q, median xs = Fin q.
Proof.
  intros H. destruct (median xs) as [|q] eqn:E; [|now exists q].
  apply median_NaN_iff in E. contradiction.
Qed.

(** Every salary in a filtered view is present: [between] is false on a
    missing cell. *)
Lemma filtered_salary_present df c r :
  In r (rows (filtered_df df c)) -> exists q, avg_salary_lpa r = Fin q.
Proof.
  rewrite filtered_df_rows, filter_In, full_mask_spec.
  intros [_ [_ [[q [Hq _]] _]]]. now exists q.
Qed.

Lemma filtered_experience_present df c r :
  In r (rows (filtered_df df c)) -> exists n, min_experience_clean r = Some n.
Proof.
  rewrite filtered_df_rows, filter_In, full_mask_spec.
  intros [_ [_ [_ [[n [Hn _]] _]]]]. now exists n.
Qed.

Lemma median_of_present (l : list Row) :
  l <> [] ->
  (forall r, In r l -> exists q, avg_salary_lpa r = Fin q) ->
  exists q, median (map avg_salary_lpa l) = Fin q.
Proof.
  intros Hne Hall. apply median_finite.
  destruct l as [|r l]; [contradiction|].
  destruct (Hall r (or_introl eq_refl)) as [q Hq].
  simpl. rewrite Hq. discriminate.
Qed.

(** ** Group keys *)

Section UniqueFacts.
Context {K : Type} (eqb : K -> K -> bool).
Hypothesis eqb_spec : forall x y, eqb x y = true <-> x = y.

Lemma unique_In x l : In x (unique eqb l) <-> In x l.
Proof.
  induction l as [|y l IH]; simpl; [tauto|].
  rewrite filter_In, IH, negb_true_iff.
  destruct (eqb x y) eqn:E.
  - apply eqb_spec in E. subst. split; [now left | now left].
  - split.
    + intros [H|[H _]]; auto.
    + intros [H|H]; [now left | right; now split].
Qed.

Lemma unique_NoDup l : NoDup (unique eqb l).
Proof.
  induction l as [|y l IH]; simpl; constructor.
  - rewrite filter_In, negb_true_iff. intros [_ H].
    assert (eqb y y = true) by now apply eqb_spec. congruence.
  - now apply NoDup_filter.
Qed.

Lemma has_key_spec key k r : has_key eqb key k r = true <-> key r = Some k.
Proof.
  unfold has_key. destruct (key r) as [k'|].
  - rewrite eqb_spec. split; [now intros -> | now intros [= ->]].
  - split; discriminate.
Qed.

Lemma group_In key k df r :
  In r (group eqb key k df) <-> In r (rows df) /\ key r = Some k.
Proof. unfold group. now rewrite filter_In, has_key_spec. Qed.

Lemma occurrences_pos k xs : In (Some k) xs -> 0 < occurrences eqb k xs.
Proof.
  intros H. unfold occurrences.
  assert (Hin : In (Some k)
    (filter (fun x => match x with None => false | Some k' => eqb k' k end) xs)).
  { apply filter_In. split; [exact H | now apply eqb_spec]. }
  destruct (filter _ xs); [contradiction | simpl; lia].
Qed.
End UniqueFacts.

Section KeyFacts.
Context {K : Type} (eqb leb : K -> K -> bool).
Hypothesis eqb_spec : forall x y, eqb x y = true <-> x = y.

Lemma group_keys_In k ks : In k (group_keys eqb leb ks) <-> In (Some k) ks.
Proof.
  unfold group_keys.
  now rewrite sort_by_In, (unique_In _ eqb_spec), dropna_In.
Qed.

Lemma group_keys_NoDup ks : NoDup (group_keys eqb leb ks).
Proof.
  unfold group_keys.
  apply (Permutation_NoDup (l := unique eqb (dropna ks))).
  - symmetry. apply sort_by_perm.
  - now apply unique_NoDup.
Qed.

Lemma groupby_median_keys key df :
  map fst (groupby_median eqb leb key df)
  = group_keys eqb leb (map key (rows df)).
Proof.
  unfold groupby_median. rewrite map_map. simpl. apply map_id.
Qed.

Lemma groupby_median_entry key df k m :
  In (k, m) (groupby_median eqb leb key df) ->
  m = median (map avg_salary_lpa (group eqb key k df))
  /\ exists r, In r (rows df) /\ key r = Some k.
Proof.
  unfold groupby_median. rewrite in_map_iff.
  intros [k' [[= -> <-] Hk]]. split; [reflexivity|].
  apply group_keys_In, in_map_iff in Hk.
  destruct Hk as [r [Hr Hin]]. now exists r.
Qed.
End KeyFacts.

(** ** The order on floats used by [sort_values] *)







Lemma StronglySorted_impl {A} (R S : A -> A -> Prop) l :
  (forall a b, R a b -> S a b) -> StronglySorted R l -> StronglySorted S l.
Proof.
  intros HRS. induction 1 as [|a l Hs IH Ha]; constructor; [exact IH|].
  rewrite Forall_forall in *. auto.
Qed.

Lemma map_fst_filter {A B} (p : A -> bool) (l : list (A * B)) :
  map fst (filter (fun e => p (fst e)) l) = filter p (map fst l).
Proof.
  induction l as [|[a b] l IH]; simpl; [reflexivity|].
  destruct (p a); simpl; now rewrite IH.
Qed.

(** ** Salary by seniority (C8) *)


(** ** Salary against experience (C10) *)

Lemma Z_eqb_spec x y : Z.eqb x y = true <-> x = y.
Proof. apply Z.eqb_eq. Qed.


(** ** Frequency tables (C5) *)

Lemma counts_of_perm {K} (eqb : K -> K -> bool) xs t t' :
  Permutation t t' -> counts_of eqb xs t -> counts_of eqb xs t'.
Proof.
  intros Hp [Hnd [Hk Hn]]. split; [|split].
  - apply (Permutation_NoDup (l := map fst t)); [now apply Permutation_map | exact Hnd].
  - intros k. rewrite <- Hk. split; apply Permutation_in, Permutation_map;
      [now symmetry | exact Hp].
  - intros k n Hin. apply Hn. apply (Permutation_in _ (Permutation_sym Hp) Hin).
Qed.

Section CountFacts.
Context {K : Type} (eqb : K -> K -> bool).
Hypothesis eqb_spec : forall x y, eqb x y = true <-> x = y.

Lemma value_counts_counts_of xs : counts_of eqb xs (value_counts eqb xs).
Proof.
  unfold value_counts.
  apply counts_of_perm
    with (t := map (fun k => (k, occurrences eqb k xs)) (unique eqb (dropna xs))).
  { symmetry. apply sort_by_perm. }
  assert (Hfst : map fst (map (fun k => (k, occurrences eqb k xs))
                             (unique eqb (dropna xs)))
                 = unique eqb (dropna xs)).
  { rewrite map_map. simpl. apply map_id. }
  split; [|split].
  - rewrite Hfst. now apply unique_NoDup.
  - intros k. rewrite Hfst, (unique_In _ eqb_spec). apply dropna_In.
  - intros k n Hin. apply in_map_iff in Hin.
    destruct Hin as [k' [[= -> <-] Hin]]. split; [reflexivity|].
    apply (occurrences_pos _ eqb_spec).
    now apply dropna_In, (unique_In _ eqb_spec).
Qed.

End CountFacts.



(** ** Salary by job category (C3) *)

Lemma count_cells_le {K} (xs : list (option K)) :
  count_cells xs <= Z.of_nat (List.length xs).
Proof.
  unfold count_cells. apply inj_le.
  induction xs as [|[k|] xs IH]; simpl; lia.
Qed.





Lemma cat_salary_grouped_entry fdf e :
  In e (cat_salary_grouped fdf) ->
  cs_avg_salary_lpa e
  = median (map avg_salary_lpa (category_group (cs_job_category e) fdf))
  /\ cs_count e
     = count_cells (map job_title (category_group (cs_job_category e) fdf))
  /\ exists r, In r (rows fdf) /\ job_category r = cs_job_category e.
Proof.
  unfold cat_salary_grouped. rewrite in_map_iff.
  intros [k [<- Hk]]. simpl. split; [reflexivity|]. split; [reflexivity|].
  apply (group_keys_In _ _ String.eqb_eq), in_map_iff in Hk.
  destruct Hk as [r [He Hr]]. simpl in He. injection He as He. now exists r.
Qed.

Lemma category_group_length k fdf :
  Z.of_nat (List.length (category_group k fdf)) = rows_in_category k fdf.
Proof. reflexivity. Qed.

(** Whatever the titles, an entry of the category table stands for at
    least five rows of the view. *)
Lemma cat_salary_min_rows (fdf : DataFrame) (e : CatSalary) :
  In e (cat_salary fdf) ->
  5 <= cs_count e /\ cs_count e <= rows_in_category (cs_job_category e) fdf.
Proof.
  unfold cat_salary. intros H. apply head_In, sort_by_In, filter_In in H.
  destruct H as [Hin H5]. apply Z.leb_le in H5. split; [exact H5|].
  apply cat_salary_grouped_entry in Hin. destruct Hin as [_ [-> _]].
  rewrite <- category_group_length.
  etransitivity; [apply count_cells_le|]. now rewrite length_map.
Qed.




(** ** Salary growth (C6) *)

Lemma Qlt_bool_iff x y : Qlt_bool x y = true <-> (x < y)%Q.
Proof.
  unfold Qlt_bool. rewrite negb_true_iff. split.
  - intros H. apply Qnot_le_lt. intros Hle.
    apply Qle_bool_iff in Hle. congruence.
  - intros H. destruct (Qle_bool y x) eqn:E; [|reflexivity].
    apply Qle_bool_iff in E. exfalso. revert E. now apply Qlt_not_le.
Qed.



Lemma level_salaries_rows level fdf :
  level_salaries level fdf = map avg_salary_lpa (level_rows level fdf).
Proof. reflexivity. Qed.




(** ** Skills (C4) *)

Lemma skill_cols_In fdf col :
  In col (skill_cols fdf) <->
  In col (columns fdf) /\ String.prefix "skill_" col = true.
Proof. unfold skill_cols. apply filter_In. Qed.

Lemma column_sum_range col fdf : 0 <= column_sum col fdf <= len fdf.
Proof.
  unfold column_sum, len. split; [lia|].
  apply inj_le. induction (rows fdf) as [|r l IH]; simpl; [lia|].
  destruct (cell r col); simpl; lia.
Qed.

Lemma dict_set_keys d k v x :
  In x (map fst (dict_set d k v)) <-> x = k \/ In x (map fst d).
Proof.
  induction d as [|[k' v'] d IH]; simpl.
  - split; [intros [H|[]]; now left | intros [H|[]]; now left].
  - destruct (String.eqb k' k) eqn:E; simpl.
    + apply String.eqb_eq in E. subst k'. intuition.
    + rewrite IH. intuition.
Qed.

Lemma dict_set_NoDup d k v :
  NoDup (map fst d) -> NoDup (map fst (dict_set d k v)).
Proof.
  induction d as [|[k' v'] d IH]; simpl; intros H.
  - constructor; [intros [] | constructor].
  - apply NoDup_cons_iff in H. destruct H as [Hni Hnd].
    destruct (String.eqb k' k) eqn:E; simpl.
    + now constructor.
    + constructor; [|auto]. rewrite dict_set_keys. intros [->|H]; [|auto].
      rewrite String.eqb_refl in E. discriminate.
Qed.

Lemma dict_set_In d k v e :
  In e (dict_set d k v) -> e = (k, v) \/ In e d.
Proof.
  induction d as [|[k' v'] d IH]; simpl.
  - intros [<-|[]]. now left.
  - destruct (String.eqb k' k) eqn:E; simpl.
    + apply String.eqb_eq in E. subst k'. intuition.
    + intros [H|H]; [now (right; left)|]. apply IH in H. intuition.
Qed.

Section SkillFold.
Variable fdf : DataFrame.

Local Abbreviation step :=
  (fun (d : list (string * Z)) (col : string) =>
     let count := column_sum col fdf in
     if 0 <? count then dict_set d (skill_name col) count else d).

Local Abbreviation good :=
  (fun e : string * Z => skill_entry_ok fdf e /\ 0 < snd e).

Lemma skill_fold_spec cols :
  forall d,
    incl cols (skill_cols fdf) ->
    NoDup (map fst d) ->
    (forall e, In e d -> good e) ->
    NoDup (map fst (fold_left step cols d))
    /\ (forall e, In e (fold_left step cols d) -> good e)
    /\ (forall x, In x (map fst d) ->
                  In x (map fst (fold_left step cols d)))
    /\ (forall col, In col cols -> 0 < column_sum col fdf ->
                    In (skill_name col) (map fst (fold_left step cols d))).
Proof.
  induction cols as [|col cols IH]; intros d Hincl Hnd Hgood; simpl.
  - split; [exact Hnd|]. split; [exact Hgood|]. split; [auto|].
    intros col [].
  - assert (Hcol : In col (skill_cols fdf)) by (apply Hincl; now left).
    assert (Hincl' : incl cols (skill_cols fdf))
      by (intros x Hx; apply Hincl; now right).
    assert (Hnd' : NoDup (map fst (step d col))).
    { cbv beta zeta. destruct (0 <? column_sum col fdf); [|exact Hnd].
      now apply dict_set_NoDup. }
    assert (Hgood' : forall e, In e (step d col) -> good e).
    { cbv beta zeta. destruct (0 <? column_sum col fdf) eqn:E; [|exact Hgood].
      intros e He. apply dict_set_In in He. destruct He as [->|He]; [|auto].
      apply Z.ltb_lt in E. split; [|exact E].
      apply skill_cols_In in Hcol. exists col. simpl. tauto. }
    destruct (IH (step d col) Hincl' Hnd' Hgood') as [H1 [H2 [H3 H4]]].
    split; [exact H1|]. split; [exact H2|]. split.
    + intros x Hx. apply H3. cbv beta zeta.
      destruct (0 <? column_sum col fdf); [|exact Hx].
      apply dict_set_keys. now right.
    + intros col' [<-|Hin] Hpos; [|now apply H4].
      apply H3. cbv beta zeta. apply Z.ltb_lt in Hpos. rewrite Hpos.
      apply dict_set_keys. now left.
Qed.
End SkillFold.

Lemma skill_counts_spec (fdf : DataFrame) :
  NoDup (map fst (skill_counts fdf))
  /\ (forall e, In e (skill_counts fdf) ->
                skill_entry_ok fdf e /\ 0 < snd e)
  /\ (forall col, In col (skill_cols fdf) -> 0 < column_sum col fdf ->
                  In (skill_name col) (map fst (skill_counts fdf))).
Proof.
  destruct (skill_fold_spec fdf (skill_cols fdf) [])
    as [H1 [H2 [_ H4]]].
  - apply incl_refl.
  - constructor.
  - intros e [].
  - split; [exact H1|]. split; [exact H2 | exact H4].
Qed.

(** Rounding to one decimal. *)





Lemma share_range (count size : Z) :
  0 < count -> count <= size ->
  (0 <= inject_Z count / inject_Z size * 100)%Q
  /\ (inject_Z count / inject_Z size * 100 <= 100)%Q.
Proof.
  intros Hc Hs.
  assert (Hpos : (0 < inject_Z size)%Q).
  { change 0%Q with (inject_Z 0). rewrite <- Zlt_Qlt. lia. }
  assert (Hlo : (0 <= inject_Z count / inject_Z size)%Q).
  { apply Qle_shift_div_l; [exact Hpos|]. rewrite Qmult_0_l.
    change 0%Q with (inject_Z 0). rewrite <- Zle_Qle. lia. }
  assert (Hhi : (inject_Z count / inject_Z size <= 1)%Q).
  { apply Qle_shift_div_r; [exact Hpos|]. rewrite Qmult_1_l.
    rewrite <- Zle_Qle. exact Hs. }
  set (y := (inject_Z count / inject_Z size)%Q) in *. split; lra.
Qed.

Lemma top_skills_In fdf e :
  In e (top_skills fdf) ->
  skill_entry_ok fdf e /\ 0 < snd e /\ snd e <= len fdf.
Proof.
  unfold top_skills. intros H. apply head_In, sort_by_In in H.
  destruct (skill_counts_spec fdf) as [_ [Hok _]].
  destruct (Hok e H) as [Hcol Hpos]. split; [exact Hcol|]. split; [exact Hpos|].
  destruct Hcol as [col [_ [_ [_ ->]]]]. apply column_sum_range.
Qed.


(** The share of the spec's example: a skill flagged in 3 of 4 rows has
    the share 75.0. *)
Example share_three_of_four :
  (round1 (inject_Z 3 / inject_Z 4 * 100) == 75)%Q.
Proof. reflexivity. Qed.

(** ** The empty view (C2) *)


Lemma empty_view_frame fdf : rows fdf = [] -> fdf = mkDF (columns fdf) [].
Proof. intros H. now apply DataFrame_eq. Qed.

(** On any view without rows the header shows the missing median and
    mean as they are formatted, [nan]. *)
Lemma main_metrics_empty fdf :
  rows fdf = [] ->
  main_metrics fdf = mkMetrics "0" (rupee ++ "nan LPA") "0" "nan yrs".
Proof. intros H. now rewrite (empty_view_frame fdf H). Qed.

Lemma skills_df_empty cols : skills_df (mkDF cols []) = None.
Proof.
  unfold skills_df. pose proof (top_skills_In (mkDF cols [])) as H.
  destruct (top_skills (mkDF cols [])) as [|e l]; [reflexivity|].
  destruct (H e (or_introl eq_refl)) as [_ [Hpos Hle]].
  unfold len in Hle. simpl in Hle. lia.
Qed.

(** C2.  With no category selected the view is empty and nothing fails:
    the guarded displays fall back (top category "N/A"; level metrics,
    salary range, growth and skills frame skipped; no market line, so no
    division), the counts show 0 - but the median salary and the average
    experience are formatted from NaN and read "nan", not a placeholder. *)
Theorem empty_view_header (df : DataFrame) (sen : string) (sal : Q * Q)
  (ex : Z * Z) :
  let fdf := filtered_df df (mkCriteria [] sen sal ex) in
  rows fdf = []
  /\ median_salary fdf = NaN
  /\ avg_exp fdf = NaN
  /\ main_metrics fdf = mkMetrics "0" (rupee ++ "nan LPA") "0" "nan yrs"
  /\ top_cat fdf = Some "N/A"%string
  /\ (forall level, level_metric level fdf = None)
  /\ salary_range_text fdf = None
  /\ growth_pct fdf = None
  /\ market_composition fdf = Some []
  /\ skills_df fdf = None.
Proof.
  intros fdf.
  pose proof (empty_selection_rows df sen sal ex) as Hrows. fold fdf in Hrows.
  split; [exact Hrows|].
  split; [unfold median_salary; now rewrite Hrows|].
  split; [unfold avg_exp; now rewrite Hrows|].
  split; [now apply main_metrics_empty|].
  rewrite (empty_view_frame fdf Hrows).
  split; [reflexivity|]. split; [reflexivity|]. split; [reflexivity|].
  split; [reflexivity|]. split; [reflexivity | apply skills_df_empty].
Qed.

(** ** The conditional properties on the sample table *)



(** * Further properties of the script *)

(** ** Order facts *)

Lemma sort_by_head_least {A} (leb : A -> A -> bool) l x rest :
  (forall a b, leb a b = true \/ leb b a = true) ->
  (forall a b c, leb a b = true -> leb b c = true -> leb a c = true) ->
  sort_by leb l = x :: rest ->
  forall y, In y l -> leb x y = true.
Proof.
  intros Htot Htrans Hs y Hy.
  pose proof (sort_by_sorted leb Htot Htrans l) as Hsorted.
  apply (sort_by_In leb) in Hy. rewrite Hs in Hy, Hsorted.
  apply StronglySorted_inv in Hsorted. destruct Hsorted as [_ Hall].
  destruct Hy as [<-|Hy].
  - destruct (Htot x x); assumption.
  - rewrite Forall_forall in Hall. now apply Hall.
Qed.

Lemma sort_by_head_In {A} (leb : A -> A -> bool) l x rest :
  sort_by leb l = x :: rest -> In x l.
Proof.
  intros Hs. apply (sort_by_In leb). rewrite Hs. now left.
Qed.

Lemma sort_by_nil {A} (leb : A -> A -> bool) l : sort_by leb l = [] -> l = [].
Proof.
  intros H. apply (f_equal (@List.length A)) in H.
  rewrite sort_by_length in H. now destruct l.
Qed.

Lemma Qle_bool_total a b : Qle_bool a b = true \/ Qle_bool b a = true.
Proof.
  rewrite !Qle_bool_iff.
  destruct (Qlt_le_dec a b) as [H|H]; [left; now apply Qlt_le_weak | now right].
Qed.

Lemma Qle_bool_trans a b c :
  Qle_bool a b = true -> Qle_bool b c = true -> Qle_bool a c = true.
Proof. rewrite !Qle_bool_iff. apply Qle_trans. Qed.

Lemma Qge_bool_total a b : Qle_bool b a = true \/ Qle_bool a b = true.
Proof. apply Qle_bool_total. Qed.

Lemma Qge_bool_trans a b c :
  Qle_bool b a = true -> Qle_bool c b = true -> Qle_bool c a = true.
Proof. intros H1 H2. now apply Qle_bool_trans with b. Qed.

Lemma series_min_least xs lo :
  series_min xs = Fin lo ->
  In (Fin lo) xs /\ forall q, In (Fin q) xs -> (lo <= q)%Q.
Proof.
  unfold series_min.
  destruct (sort_by Qle_bool (dropna_float xs)) as [|x rest] eqn:E;
    [discriminate|].
  intros [= ->]. split.
  - apply dropna_float_In. now apply (sort_by_head_In Qle_bool _ _ rest).
  - intros q Hq. apply dropna_float_In in Hq. apply Qle_bool_iff.
    apply (sort_by_head_least Qle_bool _ _ rest Qle_bool_total Qle_bool_trans E).
    exact Hq.
Qed.

Lemma series_max_greatest xs hi :
  series_max xs = Fin hi ->
  In (Fin hi) xs /\ forall q, In (Fin q) xs -> (q <= hi)%Q.
Proof.
  unfold series_max.
  destruct (sort_by (fun a b => Qle_bool b a) (dropna_float xs))
    as [|x rest] eqn:E; [discriminate|].
  intros [= ->]. split.
  - apply dropna_float_In.
    now apply (sort_by_head_In (fun a b => Qle_bool b a) _ _ rest).
  - intros q Hq. apply dropna_float_In in Hq. apply Qle_bool_iff.
    apply (sort_by_head_least (fun a b => Qle_bool b a) _ _ rest
             Qge_bool_total Qge_bool_trans E).
    exact Hq.
Qed.

Lemma series_min_NaN xs : series_min xs = NaN <-> dropna_float xs = [].
Proof.
  unfold series_min.
  destruct (sort_by Qle_bool (dropna_float xs)) as [|x rest] eqn:E.
  - apply sort_by_nil in E. tauto.
  - split; [discriminate|]. intros H. rewrite H in E. discriminate.
Qed.

Lemma series_max_NaN xs : series_max xs = NaN <-> dropna_float xs = [].
Proof.
  unfold series_max.
  destruct (sort_by (fun a b => Qle_bool b a) (dropna_float xs))
    as [|x rest] eqn:E.
  - apply sort_by_nil in E. tauto.
  - split; [discriminate|]. intros H. rewrite H in E. discriminate.
Qed.

Lemma max_exp_greatest df mx :
  max_exp df = Some mx ->
  forall r n, In r (rows df) -> min_experience_clean r = Some n -> n <= mx.
Proof.
  unfold max_exp.
  destruct (sort_by (fun a b => b <=? a)
              (dropna (map min_experience_clean (rows df))))
    as [|x rest] eqn:E; [discriminate|].
  intros [= ->] r n Hr Hn. apply Z.leb_le.
  apply (sort_by_head_least (fun a b => b <=? a) _ _ rest) with (y := n) in E.
  - exact E.
  - intros a b. rewrite !Z.leb_le. lia.
  - intros a b c. rewrite !Z.leb_le. lia.
  - apply dropna_In, in_map_iff. exists r. now split.
Qed.

(** Transitivity of the order of texts. *)

Lemma ascii_compare_refl a : Ascii.compare a a = Eq.
Proof. unfold Ascii.compare. apply N.compare_refl. Qed.

Lemma ascii_compare_lt_trans a b c :
  Ascii.compare a b = Lt -> Ascii.compare b c = Lt -> Ascii.compare a c = Lt.
Proof.
  unfold Ascii.compare. rewrite !N.compare_lt_iff. apply N.lt_trans.
Qed.

Lemma string_compare_refl s : String.compare s s = Eq.
Proof.
  induction s as [|a s IH]; simpl; [reflexivity|].
  now rewrite ascii_compare_refl.
Qed.

Lemma string_compare_lt_trans s1 :
  forall s2 s3,
    String.compare s1 s2 = Lt -> String.compare s2 s3 = Lt ->
    String.compare s1 s3 = Lt.
Proof.
  induction s1 as [|a s1 IH]; intros [|b s2] [|c s3]; simpl;
    try discriminate; try reflexivity.
  destruct (Ascii.compare a b) eqn:Eab; try discriminate;
    destruct (Ascii.compare b c) eqn:Ebc; try discriminate; intros H1 H2.
  - apply Ascii.compare_eq_iff in Eab, Ebc. subst.
    rewrite ascii_compare_refl. now apply IH with s2.
  - apply Ascii.compare_eq_iff in Eab. subst. now rewrite Ebc.
  - apply Ascii.compare_eq_iff in Ebc. subst. now rewrite Eab.
  - now rewrite (ascii_compare_lt_trans a b c).
Qed.

Lemma string_leb_trans a b c :
  String.leb a b = true -> String.leb b c = true -> String.leb a c = true.
Proof.
  unfold String.leb.
  destruct (String.compare a b) eqn:Eab; [| |discriminate];
    destruct (String.compare b c) eqn:Ebc; try discriminate; intros _ _.
  - apply String.compare_eq_iff in Eab, Ebc. subst.
    now rewrite string_compare_refl.
  - apply String.compare_eq_iff in Eab. subst. now rewrite Ebc.
  - apply String.compare_eq_iff in Ebc. subst. now rewrite Eab.
  - now rewrite (string_compare_lt_trans a b c).
Qed.

Lemma sorted_names (l : list string) : by_name_asc (sort_by String.leb l).
Proof.
  unfold by_name_asc. apply sort_by_sorted.
  - apply String.leb_total.
  - apply string_leb_trans.
Qed.

(** ** The sidebar controls *)

Lemma sorted_unique_spec {A} (f : A -> string) (l : list A) :
  by_name_asc (sort_by String.leb (unique String.eqb (map f l)))
  /\ NoDup (sort_by String.leb (unique String.eqb (map f l)))
  /\ forall k, In k (sort_by String.leb (unique String.eqb (map f l))) <->
               exists a, In a l /\ f a = k.
Proof.
  split; [apply sorted_names|]. split.
  - apply (Permutation_NoDup (l := unique String.eqb (map f l))).
    + symmetry. apply sort_by_perm.
    + apply unique_NoDup, String.eqb_eq.
  - intros k. rewrite sort_by_In, (unique_In _ String.eqb_eq), in_map_iff.
    split; intros [a [H1 H2]]; exists a; tauto.
Qed.

(** X1.  The category options are the job categories of the table, each
    once, in ascending order; the preselected ones are the first three
    of them (all, when there are fewer), so each occurs in the table.  The
    seniority options are "All" followed by the seniority values of the
    table, each once, in ascending order. *)
Theorem sidebar_options (df : DataFrame) :
  by_name_asc (all_categories df)
  /\ NoDup (all_categories df)
  /\ (forall k, In k (all_categories df) <->
                exists r, In r (rows df) /\ job_category r = k)
  /\ prefix_of 3 (default_categories df) (all_categories df)
  /\ (forall k, In k (default_categories df) ->
                exists r, In r (rows df) /\ job_category r = k)
  /\ exists levels,
       seniority_options df = "All"%string :: levels
       /\ by_name_asc levels /\ NoDup levels
       /\ forall s, In s levels <-> exists r, In r (rows df) /\ seniority r = s.
Proof.
  destruct (sorted_unique_spec job_category (rows df)) as [H1 [H2 H3]].
  split; [exact H1|]. split; [exact H2|]. split; [exact H3|].
  split; [apply head_prefix_of|]. split.
  - intros k Hk. apply head_In in Hk. now apply H3.
  - eexists. split; [reflexivity|]. apply sorted_unique_spec.
Qed.

(** X2.  With the controls in their initial state - the preselected
    categories, "All", the salary slider from the least to the greatest
    salary of the table, the experience slider from 0 to the greatest
    experience - the view is the rows of the preselected categories
    whose salary is present and whose experience is present and not
    negative: the sliders themselves exclude nothing else. *)
Theorem initial_view (df : DataFrame) (lo hi : Q) (mx : Z)
  (Hmin : min_sal df = Fin lo) (Hmax : max_sal df = Fin hi)
  (Hexp : max_exp df = Some mx) :
  rows (filtered_df df (initial_criteria df lo hi mx))
  = filter (fun r =>
              isin (job_category r) (default_categories df)
              && notna (avg_salary_lpa r)
              && match min_experience_clean r with
                 | None => false
                 | Some n => 0 <=? n
                 end)
           (rows df).
Proof.
  rewrite filtered_df_rows. apply filter_ext_in. intros r Hr.
  unfold full_mask, base_mask, initial_criteria. simpl.
  rewrite andb_true_r. f_equal; [f_equal|].
  - destruct (avg_salary_lpa r) as [|q] eqn:Eq; [reflexivity|]. simpl.
    destruct (series_min_least _ _ Hmin) as [_ Hlo].
    destruct (series_max_greatest _ _ Hmax) as [_ Hhi].
    assert (Hin : In (Fin q) (map avg_salary_lpa (rows df))).
    { apply in_map_iff. exists r. now split. }
    apply andb_true_iff. rewrite !Qle_bool_iff. split; auto.
  - destruct (min_experience_clean r) as [n|] eqn:En; [|reflexivity]. simpl.
    pose proof (max_exp_greatest df mx Hexp r n Hr En) as Hle.
    apply Z.leb_le in Hle. rewrite Hle. apply andb_true_r.
Qed.

Lemma initial_view_witness :
  min_sal sample_df = Fin 6 /\ max_sal sample_df = Fin 40
  /\ max_exp sample_df = Some 16
  /\ rows (filtered_df sample_df (initial_criteria sample_df 6 40 16))
     = filter (fun r =>
                 isin (job_category r) (default_categories sample_df)
                 && notna (avg_salary_lpa r)
                 && match min_experience_clean r with
                    | None => false
                    | Some n => 0 <=? n
                    end)
              (rows sample_df).
Proof.
  split; [reflexivity|]. split; [reflexivity|]. split; [reflexivity|].
  apply (initial_view sample_df 6 40 16); reflexivity.
Defined.

(** ** Combining filters *)

Lemma filter_comm {A} (f g : A -> bool) (l : list A) :
  filter f (filter g l) = filter g (filter f l).
Proof.
  rewrite !filter_filter_and. apply filter_ext. intros a. apply andb_comm.
Qed.

(** X3.  Two filters applied one after the other keep the rows that pass
    both, so the order in which they are applied does not matter. *)
Theorem filtered_df_commute (df : DataFrame) (c1 c2 : FilterCriteria) :
  rows (filtered_df (filtered_df df c1) c2)
  = filter (fun r => full_mask c1 r && full_mask c2 r) (rows df)
  /\ filtered_df (filtered_df df c1) c2 = filtered_df (filtered_df df c2) c1.
Proof.
  split.
  - rewrite !filtered_df_rows. apply filter_filter_and.
  - apply DataFrame_eq.
    + now rewrite !filtered_df_columns.
    + rewrite !filtered_df_rows. apply filter_comm.
Qed.

Lemma relaxes_satisfies c' c r : relaxes c' c -> satisfies c r -> satisfies c' r.
Proof.
  intros [Hcat [Hlo [Hhi [Helo [Hehi Hsen]]]]] [H1 [H2 [H3 H4]]].
  split; [|split; [|split]].
  - now apply Hcat.
  - destruct H2 as [q [Hq [Ha Hb]]]. exists q. split; [exact Hq|].
    split; [now apply Qle_trans with (fst (salary_range c))
           | now apply Qle_trans with (snd (salary_range c))].
  - destruct H3 as [n [Hn [Ha Hb]]]. exists n. split; [exact Hn|]. lia.
  - unfold seniority_ok in *. destruct Hsen as [Hs|Hs]; [now left|].
    rewrite Hs. exact H4.
Qed.

(** X4.  Relaxing the criteria never loses a posting: when [c'] asks for
    no more than [c], every row of the view of [c] is in the view of
    [c'], and narrowing the view of [c'] by [c] gives the view of [c]. *)
Theorem filtered_df_monotone (df : DataFrame) (c c' : FilterCriteria)
  (Hrelax : relaxes c' c) :
  (forall r, In r (rows (filtered_df df c)) -> In r (rows (filtered_df df c')))
  /\ filtered_df (filtered_df df c') c = filtered_df df c.
Proof.
  split.
  - intros r. rewrite !filtered_df_rows, !filter_In, !full_mask_spec.
    intros [Hr Hs]. split; [exact Hr|]. now apply relaxes_satisfies with c.
  - apply DataFrame_eq.
    + now rewrite !filtered_df_columns.
    + rewrite !filtered_df_rows, filter_filter_and. apply filter_ext.
      intros r. destruct (full_mask c r) eqn:E; [|apply andb_false_r].
      rewrite andb_true_r. apply full_mask_spec.
      apply relaxes_satisfies with c; [exact Hrelax|].
      now apply full_mask_spec.
Qed.

Lemma filtered_df_monotone_witness :
  relaxes sample_criteria example_criteria
  /\ (forall r, In r (rows (filtered_df sample_df example_criteria)) ->
                In r (rows (filtered_df sample_df sample_criteria)))
  /\ filtered_df (filtered_df sample_df sample_criteria) example_criteria
     = filtered_df sample_df example_criteria.
Proof.
  assert (H : relaxes sample_criteria example_criteria).
  { unfold relaxes. simpl. split; [apply incl_refl|].
    split; [discriminate|]. split; [discriminate|].
    split; [lia|]. split; [lia|]. now left. }
  split; [exact H|].
  apply (filtered_df_monotone sample_df example_criteria sample_criteria H).
Defined.

(** ** The header metrics on a view with rows *)

Lemma median_cases xs :
  median xs = NaN
  \/ (exists a, In (Fin a) xs /\ median xs = Fin a)
  \/ (exists a b, In (Fin a) xs /\ In (Fin b) xs
                  /\ median xs = Fin ((a + b) / 2)%Q).
Proof.
  unfold median. set (v := sort_by Qle_bool (dropna_float xs)).
  assert (Hv : forall i, (i < List.length v)%nat -> In (Fin (nth i v 0%Q)) xs).
  { intros i Hi. apply dropna_float_In, (sort_by_In Qle_bool). now apply nth_In. }
  destruct (List.length v) as [|n] eqn:En; [now left|]. right.
  assert (Hhalf : (S n / 2 < S n)%nat) by (apply Nat.div_lt; lia).
  destruct (Nat.odd (S n)).
  - left. exists (nth (S n / 2) v 0%Q). split; [now apply Hv | reflexivity].
  - right. exists (nth (S n / 2 - 1) v 0%Q), (nth (S n / 2) v 0%Q).
    split; [apply Hv; lia|]. split; [now apply Hv | reflexivity].
Qed.

Lemma median_between xs lo hi m :
  (forall q, In (Fin q) xs -> lo <= q /\ q <= hi)%Q ->
  median xs = Fin m -> (lo <= m /\ m <= hi)%Q.
Proof.
  intros Hall Hm.
  destruct (median_cases xs) as [H|[[a [Ha H]]|[a [b [Ha [Hb H]]]]]];
    rewrite H in Hm; [discriminate| |]; injection Hm as <-.
  - now apply Hall.
  - destruct (Hall a Ha) as [Ha1 Ha2]. destruct (Hall b Hb) as [Hb1 Hb2].
    split; [apply Qle_shift_div_l | apply Qle_shift_div_r];
      try reflexivity; lra.
Qed.

Lemma filtered_salary_range df c r q :
  In r (rows (filtered_df df c)) -> avg_salary_lpa r = Fin q ->
  (fst (salary_range c) <= q /\ q <= snd (salary_range c))%Q.
Proof.
  rewrite filtered_df_rows, filter_In, full_mask_spec.
  intros [_ [_ [[q' [Hq' Hr]] _]]] Hq. rewrite Hq in Hq'.
  injection Hq' as ->. exact Hr.
Qed.

Lemma filtered_experience_range df c r n :
  In r (rows (filtered_df df c)) -> min_experience_clean r = Some n ->
  fst (exp_range c) <= n <= snd (exp_range c).
Proof.
  rewrite filtered_df_rows, filter_In, full_mask_spec.
  intros [_ [_ [_ [[n' [Hn' Hr]] _]]]] Hn. rewrite Hn in Hn'.
  injection Hn' as ->. exact Hr.
Qed.

Lemma median_rows_NaN df c (l : list Row) :
  (forall r, In r l -> In r (rows (filtered_df df c))) ->
  (median (map avg_salary_lpa l) = NaN <-> l = []).
Proof.
  intros Hsub. split.
  - intros Hm. destruct l as [|r l]; [reflexivity|].
    destruct (median_of_present (r :: l)) as [q Hq];
      [discriminate| |congruence].
    intros r' Hr'. apply (filtered_salary_present df c). now apply Hsub.
  - intros ->. reflexivity.
Qed.

Lemma median_rows_between df c (l : list Row) m :
  (forall r, In r l -> In r (rows (filtered_df df c))) ->
  median (map avg_salary_lpa l) = Fin m ->
  (fst (salary_range c) <= m /\ m <= snd (salary_range c))%Q.
Proof.
  intros Hsub. apply median_between. intros q Hq.
  apply in_map_iff in Hq. destruct Hq as [r [Hr Hin]].
  apply (filtered_salary_range df c r); [now apply Hsub | exact Hr].
Qed.

(** X5.  The median salary of a filtered view is missing exactly when the
    view has no row; otherwise it is a number inside the selected salary
    interval. *)
Theorem median_salary_in_range (df : DataFrame) (c : FilterCriteria) :
  (median_salary (filtered_df df c) = NaN <-> rows (filtered_df df c) = [])
  /\ forall m, median_salary (filtered_df df c) = Fin m ->
               (fst (salary_range c) <= m /\ m <= snd (salary_range c))%Q.
Proof.
  unfold median_salary. split.
  - now apply (median_rows_NaN df c).
  - intros m. now apply (median_rows_between df c).
Qed.

Lemma sum_between (v : list Z) lo hi :
  (forall n, In n v -> lo <= n <= hi) ->
  Z.of_nat (List.length v) * lo <= fold_right Z.add 0 v
  /\ fold_right Z.add 0 v <= Z.of_nat (List.length v) * hi.
Proof.
  induction v as [|x v IH]; intros H; [simpl; lia|].
  destruct IH as [IH1 IH2]; [intros n Hn; apply H; now right|].
  destruct (H x (or_introl eq_refl)) as [Hx1 Hx2].
  change (fold_right Z.add 0 (x :: v)) with (x + fold_right Z.add 0 v).
  change (List.length (x :: v)) with (S (List.length v)).
  rewrite Nat2Z.inj_succ. lia.
Qed.

Lemma mean_between xs lo hi m :
  (forall n, In (Some n) xs -> lo <= n <= hi) ->
  mean xs = Fin m -> (inject_Z lo <= m /\ m <= inject_Z hi)%Q.
Proof.
  intros Hall Hm.
  destruct (dropna xs) as [|x v] eqn:E;
    [unfold mean in Hm; rewrite E in Hm; discriminate|].
  destruct (sum_between (x :: v) lo hi) as [H1 H2].
  { intros n Hn. apply Hall, dropna_In. now rewrite E. }
  assert (Hk : 0 < Z.of_nat (List.length (x :: v))) by (simpl; lia).
  assert (He : mean xs = Fin (inject_Z (fold_right Z.add 0%Z (x :: v))
                              / inject_Z (Z.of_nat (List.length (x :: v))))%Q).
  { unfold mean. now rewrite E. }
  remember (fold_right Z.add 0 (x :: v)) as s eqn:Es.
  remember (Z.of_nat (List.length (x :: v))) as k eqn:Ek.
  rewrite He in Hm. injection Hm as <-.
  assert (Hkq : (0 < inject_Z k)%Q).
  { change 0%Q with (inject_Z 0). now rewrite <- Zlt_Qlt. }
  split.
  - apply Qle_shift_div_l; [exact Hkq|].
    rewrite <- inject_Z_mult, <- Zle_Qle. lia.
  - apply Qle_shift_div_r; [exact Hkq|].
    rewrite <- inject_Z_mult, <- Zle_Qle. lia.
Qed.

Lemma mean_NaN xs : mean xs = NaN <-> dropna xs = [].
Proof.
  unfold mean. destruct (dropna xs); [tauto|]. split; discriminate.
Qed.

(** X6.  The average experience of a filtered view is missing exactly
    when the view has no row; otherwise it is a number inside the
    selected experience interval. *)
Theorem avg_exp_in_range (df : DataFrame) (c : FilterCriteria) :
  (avg_exp (filtered_df df c) = NaN <-> rows (filtered_df df c) = [])
  /\ forall m, avg_exp (filtered_df df c) = Fin m ->
               (inject_Z (fst (exp_range c)) <= m
                /\ m <= inject_Z (snd (exp_range c)))%Q.
Proof.
  unfold avg_exp. split.
  - rewrite mean_NaN. split.
    + intros Hd. destruct (rows (filtered_df df c)) as [|r l] eqn:E;
        [reflexivity|].
      destruct (filtered_experience_present df c r) as [n Hn];
        [rewrite E; now left|].
      simpl in Hd. rewrite Hn in Hd. discriminate.
    + intros ->. reflexivity.
  - intros m. apply mean_between. intros n Hn.
    apply in_map_iff in Hn. destruct Hn as [r [Hr Hin]].
    now apply (filtered_experience_range df c r).
Qed.

Lemma has_char_app ch (a b : string) :
  has_char ch (a ++ b) = has_char ch a || has_char ch b.
Proof.
  induction a as [|x a IH]; simpl; [reflexivity|].
  now rewrite IH, orb_assoc.
Qed.

Lemma format_1f_point q : has_char "." (format_1f (Fin q)) = true.
Proof.
  unfold format_1f. rewrite !has_char_app. simpl.
  now rewrite !orb_true_r.
Qed.

(** X7.  The header reads "nan" for the median salary, and for the
    average experience, exactly when the filtered view has no row. *)
Theorem header_nan_iff_empty (df : DataFrame) (c : FilterCriteria) :
  (m_median_salary (main_metrics (filtered_df df c))
   = (rupee ++ "nan LPA")%string
   <-> rows (filtered_df df c) = [])
  /\ (m_avg_experience (main_metrics (filtered_df df c)) = "nan yrs"%string
      <-> rows (filtered_df df c) = []).
Proof.
  split; split.
  - intros H. unfold main_metrics in H. cbn [m_median_salary] in H.
    destruct (median_salary (filtered_df df c)) as [|q] eqn:E.
    + unfold median_salary in E. now apply (median_rows_NaN df c) in E.
    + apply (f_equal (has_char ".")) in H.
      rewrite !has_char_app, format_1f_point in H.
      vm_compute in H. discriminate.
  - intros H. now rewrite (main_metrics_empty _ H).
  - intros H. unfold main_metrics in H. cbn [m_avg_experience] in H.
    destruct (avg_exp (filtered_df df c)) as [|q] eqn:E.
    + unfold avg_exp in E. apply mean_NaN in E.
      destruct (rows (filtered_df df c)) as [|r l] eqn:Er; [reflexivity|].
      destruct (filtered_experience_present df c r) as [n Hn];
        [rewrite Er; now left|].
      simpl in E. rewrite Hn in E. discriminate.
    + apply (f_equal (has_char ".")) in H.
      rewrite !has_char_app, format_1f_point in H.
      vm_compute in H. discriminate.
  - intros H. now rewrite (main_metrics_empty _ H).
Qed.

(** ** The key insights *)

(** X8.  In a filtered view the metric of a seniority level is shown
    exactly when the view has a row of that level; it then shows the
    median salary of those rows, a number inside the selected salary
    interval, and their number. *)
Theorem level_metric_shown (df : DataFrame) (c : FilterCriteria)
  (level : string) :
  let fdf := filtered_df df c in
  (level_metric level fdf = None <-> level_rows level fdf = [])
  /\ forall value jobs,
       level_metric level fdf = Some (value, jobs) ->
       exists m,
         median (map avg_salary_lpa (level_rows level fdf)) = Fin m
         /\ (fst (salary_range c) <= m /\ m <= snd (salary_range c))%Q
         /\ value = (rupee ++ format_1f (Fin m) ++ "L")%string
         /\ jobs = (digits (Z.of_nat (List.length (level_rows level fdf)))
                    ++ " jobs")%string.
Proof.
  intros fdf.
  assert (Hsub : forall r, In r (level_rows level fdf) -> In r (rows fdf)).
  { intros r Hr. apply filter_In in Hr. tauto. }
  unfold level_metric. rewrite level_salaries_rows, length_map.
  destruct (level_rows level fdf) as [|r l] eqn:E.
  - simpl. split; [tauto|]. discriminate.
  - replace (0 <? Z.of_nat (List.length (r :: l))) with true
      by (symmetry; apply Z.ltb_lt; simpl; lia).
    split; [split; discriminate|].
    pose proof (median_rows_NaN df c (r :: l) Hsub) as Hnan.
    pose proof (median_rows_between df c (r :: l)) as Hbetween.
    destruct (median (map avg_salary_lpa (r :: l))) as [|m].
    + destruct Hnan as [Hnan _]. specialize (Hnan eq_refl). discriminate.
    + intros value jobs [= <- <-]. exists m. split; [reflexivity|].
      split; [now apply Hbetween|]. split; reflexivity.
Qed.

(** X9.  In a filtered view the salary-range line is written exactly when
    the view has a row; its two ends are the least and the greatest
    salary of the view, both inside the selected interval, with the
    median between them. *)
Theorem salary_range_text_shown (df : DataFrame) (c : FilterCriteria) :
  let fdf := filtered_df df c in
  let sal := map avg_salary_lpa (rows fdf) in
  (salary_range_text fdf = None <-> rows fdf = [])
  /\ forall text,
       salary_range_text fdf = Some text ->
       exists lo hi m,
         series_min sal = Fin lo /\ series_max sal = Fin hi
         /\ median_salary fdf = Fin m
         /\ text = (rupee ++ format_1f (Fin lo) ++ "L - "
                    ++ rupee ++ format_1f (Fin hi) ++ "L")%string
         /\ (fst (salary_range c) <= lo /\ lo <= m /\ m <= hi
             /\ hi <= snd (salary_range c))%Q.
Proof.
  intros fdf sal.
  assert (Hpresent : forall r, In r (rows fdf) -> notna (avg_salary_lpa r) = true).
  { intros r Hr. destruct (filtered_salary_present df c r Hr) as [q ->].
    reflexivity. }
  assert (Hfilter : filter notna sal = sal).
  { unfold sal. clear - Hpresent.
    induction (rows fdf) as [|r l IH]; [reflexivity|]. simpl.
    rewrite (Hpresent r (or_introl eq_refl)). f_equal.
    apply IH. intros r' Hr'. apply Hpresent. now right. }
  unfold salary_range_text. fold sal. rewrite Hfilter.
  destruct (rows fdf) as [|r l] eqn:E.
  - subst sal. simpl. split; [tauto | discriminate].
  - replace (0 <? Z.of_nat (List.length sal)) with true
      by (symmetry; apply Z.ltb_lt; unfold sal; simpl; lia).
    split; [split; discriminate|]. intros text [= <-].
    assert (Hne : dropna_float sal <> []).
    { unfold sal. simpl.
      destruct (filtered_salary_present df c r) as [q ->];
        [fold fdf; rewrite E; now left | discriminate]. }
    destruct (series_min sal) as [|lo] eqn:Elo;
      [now apply series_min_NaN in Elo|].
    destruct (series_max sal) as [|hi] eqn:Ehi;
      [now apply series_max_NaN in Ehi|].
    destruct (median sal) as [|m] eqn:Em;
      [now apply median_NaN_iff in Em|].
    exists lo, hi, m. split; [reflexivity|]. split; [reflexivity|].
    split; [unfold median_salary; fold fdf; rewrite E; exact Em|].
    split; [reflexivity|].
    destruct (series_min_least _ _ Elo) as [Hlo_in Hlo].
    destruct (series_max_greatest _ _ Ehi) as [Hhi_in Hhi].
    assert (Hm : (lo <= m /\ m <= hi)%Q).
    { apply (median_between sal lo hi m); [|exact Em].
      intros q Hq. split; [now apply Hlo | now apply Hhi]. }
    assert (Hr : forall q, In (Fin q) sal ->
              (fst (salary_range c) <= q /\ q <= snd (salary_range c))%Q).
    { intros q Hq. unfold sal in Hq. rewrite <- E in Hq.
      apply in_map_iff in Hq. destruct Hq as [r' [Hr' Hin]].
      now apply (filtered_salary_range df c r'). }
    destruct (Hr lo Hlo_in) as [H1 _]. destruct (Hr hi Hhi_in) as [_ H2].
    tauto.
Qed.

(** ** The top category *)

Lemma fold_max_ge (l : list Z) x : In x l -> x <= fold_right Z.max 0 l.
Proof.
  induction l as [|y l IH]; simpl; [intros []|].
  intros [<-|H]; [lia|]. specialize (IH H). lia.
Qed.

Lemma fold_max_In (l : list Z) :
  l <> [] -> (forall x, In x l -> 0 <= x) -> In (fold_right Z.max 0 l) l.
Proof.
  induction l as [|y l IH]; [congruence|]. intros _ Hpos. simpl.
  destruct l as [|z l].
  - left. simpl. specialize (Hpos y (or_introl eq_refl)). lia.
  - assert (Hin : In (fold_right Z.max 0 (z :: l)) (z :: l)).
    { apply IH; [discriminate|]. intros x Hx. apply Hpos. now right. }
    destruct (Z.max_spec y (fold_right Z.max 0 (z :: l))) as [[_ ->]|[_ ->]];
      [now right | now left].
Qed.

Lemma StronglySorted_filter {A} (R : A -> A -> Prop) (p : A -> bool) l :
  StronglySorted R l -> StronglySorted R (filter p l).
Proof.
  induction 1 as [|a l Hs IH Ha]; simpl; [constructor|].
  destruct (p a); [|exact IH]. constructor; [exact IH|].
  rewrite Forall_forall in *. intros x Hx. apply filter_In in Hx.
  now apply Ha.
Qed.

Lemma occurrences_rows (f : Row -> string) k (l : list Row) :
  occurrences String.eqb k (map (fun r => Some (f r)) l)
  = Z.of_nat (List.length (filter (fun r => String.eqb (f r) k) l)).
Proof.
  unfold occurrences. f_equal.
  induction l as [|r l IH]; simpl; [reflexivity|].
  destruct (String.eqb (f r) k); simpl; now rewrite IH.
Qed.

Lemma rows_in_category_pos k fdf :
  0 < rows_in_category k fdf <->
  exists r, In r (rows fdf) /\ job_category r = k.
Proof.
  unfold rows_in_category. split.
  - intros H.
    destruct (filter (fun r => String.eqb (job_category r) k) (rows fdf))
      as [|r l] eqn:E; [simpl in H; lia|].
    assert (Hr : In r (filter (fun r => String.eqb (job_category r) k)
                              (rows fdf))) by (rewrite E; now left).
    apply filter_In in Hr. destruct Hr as [Hr Hk].
    apply String.eqb_eq in Hk. now exists r.
  - intros [r [Hr Hk]].
    assert (Hin : In r (filter (fun r => String.eqb (job_category r) k)
                               (rows fdf))).
    { apply filter_In. split; [exact Hr | now apply String.eqb_eq]. }
    destruct (filter _ (rows fdf)); [contradiction | simpl; lia].
Qed.

Lemma filter_counted {K} (cnt : K -> Z) (t : Z) (keys : list K) :
  map fst (filter (fun e : K * Z => snd e =? t)
                  (map (fun k => (k, cnt k)) keys))
  = filter (fun k => cnt k =? t) keys.
Proof.
  induction keys as [|k keys IH]; simpl; [reflexivity|].
  destruct (cnt k =? t); simpl; now rewrite IH.
Qed.

Lemma mode_categories (fdf : DataFrame) :
  mode (map (fun r => Some (job_category r)) (rows fdf))
  = filter (fun k => rows_in_category k fdf
                     =? fold_right Z.max 0
                          (map (fun k => rows_in_category k fdf)
                               (all_categories fdf)))
           (all_categories fdf).
Proof.
  unfold mode, all_categories, group_keys. rewrite dropna_map_Some.
  rewrite map_map. simpl.
  assert (Hocc : forall k,
            occurrences String.eqb k
              (map (fun r => Some (job_category r)) (rows fdf))
            = rows_in_category k fdf)
    by (intros k; apply occurrences_rows).
  rewrite (map_ext _ _ Hocc).
  rewrite (map_ext
             (fun k => (k, occurrences String.eqb k
                             (map (fun r => Some (job_category r)) (rows fdf))))
             (fun k => (k, rows_in_category k fdf)))
    by (intros k; now rewrite Hocc).
  apply filter_counted.
Qed.

(** X10.  The top category never fails: on a view without rows it is
    "N/A" with 0 openings; otherwise it is a category of the view with
    the greatest number of rows - the first in order among those with as
    many - and the openings shown are that number. *)
Theorem top_cat_most_frequent (fdf : DataFrame) :
  match rows fdf with
  | [] => top_cat fdf = Some "N/A"%string /\ top_cat_count fdf = Some 0
  | _ :: _ =>
      exists cat,
        top_cat fdf = Some cat
        /\ top_cat_count fdf = Some (rows_in_category cat fdf)
        /\ 0 < rows_in_category cat fdf
        /\ (forall k, rows_in_category k fdf <= rows_in_category cat fdf)
        /\ (forall k, rows_in_category k fdf = rows_in_category cat fdf ->
                      String.leb cat k = true)
  end.
Proof.
  destruct (rows fdf) as [|r0 l0] eqn:Erows.
  - unfold top_cat_count, top_cat, len. rewrite Erows. simpl.
    split; [reflexivity|]. unfold len. simpl. now rewrite Erows.
  - destruct (sorted_unique_spec job_category (rows fdf)) as [Hs [Hnd Hin]].
    fold (all_categories fdf) in Hs, Hnd, Hin.
    set (top := fold_right Z.max 0
                  (map (fun k => rows_in_category k fdf) (all_categories fdf))).
    assert (Hle : forall k, rows_in_category k fdf <= top).
    { intros k. destruct (Z_lt_le_dec 0 (rows_in_category k fdf)) as [Hp|Hp].
      - apply fold_max_ge, in_map_iff. exists k. split; [reflexivity|].
        apply Hin. now apply rows_in_category_pos.
      - assert (0 <= top); [|lia]. unfold top.
        clear. induction (all_categories fdf); simpl; lia. }
    assert (Hr0 : In (job_category r0) (all_categories fdf)).
    { apply Hin. exists r0. split; [rewrite Erows; now left | reflexivity]. }
    assert (Htop : In top (map (fun k => rows_in_category k fdf)
                              (all_categories fdf))).
    { apply fold_max_In.
      - destruct (all_categories fdf); [contradiction | discriminate].
      - intros x Hx. apply in_map_iff in Hx. destruct Hx as [k [<- _]].
        unfold rows_in_category. lia. }
    apply in_map_iff in Htop. destruct Htop as [k0 [Hk0 Hk0in]].
    pose proof (mode_categories fdf) as Hmode. fold top in Hmode.
    assert (Hfs : StronglySorted (fun a b => String.leb a b = true)
                    (filter (fun k => rows_in_category k fdf =? top)
                            (all_categories fdf)))
      by now apply StronglySorted_filter.
    destruct (filter (fun k => rows_in_category k fdf =? top)
                     (all_categories fdf)) as [|cat rest] eqn:Ef.
    { assert (Hk : In k0 (filter (fun k => rows_in_category k fdf =? top)
                                 (all_categories fdf))).
      { apply filter_In. split; [exact Hk0in | now apply Z.eqb_eq]. }
      rewrite Ef in Hk. contradiction. }
    assert (Hcat : In cat (all_categories fdf) /\ rows_in_category cat fdf = top).
    { assert (Hc : In cat (filter (fun k => rows_in_category k fdf =? top)
                                  (all_categories fdf)))
        by (rewrite Ef; now left).
      apply filter_In in Hc. destruct Hc as [Hc1 Hc2].
      apply Z.eqb_eq in Hc2. now split. }
    destruct Hcat as [Hcat_in Hcat_top].
    assert (Htc : top_cat fdf = Some cat).
    { unfold top_cat, len. rewrite Erows. 
      replace (0 <? Z.of_nat (List.length (r0 :: l0))) with true
        by (symmetry; apply Z.ltb_lt; simpl; lia).
      rewrite <- Erows, Hmode. reflexivity. }
    assert (Hpos : 0 < rows_in_category cat fdf)
      by (apply rows_in_category_pos; now apply Hin).
    exists cat. split; [exact Htc|]. split.
    { unfold top_cat_count. rewrite Htc. reflexivity. }
    split; [exact Hpos|]. split.
    { intros k. rewrite Hcat_top. apply Hle. }
    intros k Hk.
    assert (Hkin : In k (cat :: rest)).
    { rewrite <- Ef. apply filter_In. split.
      - apply Hin, rows_in_category_pos. lia.
      - apply Z.eqb_eq. lia. }
    destruct Hkin as [<-|Hkin].
    + destruct (String.leb_total cat cat); assumption.
    + apply StronglySorted_inv in Hfs. destruct Hfs as [_ Hall].
      rewrite Forall_forall in Hall. now apply Hall.
Qed.

(** ** Market composition *)

Lemma market_lines_ok fdf cats :
  cats = [] \/ len fdf <> 0 ->
  market_lines fdf cats
  = Some (map (fun cat =>
                 (cat, (inject_Z (rows_in_category cat fdf)
                        / inject_Z (len fdf) * 100)%Q)) cats).
Proof.
  induction cats as [|cat cats IH]; intros H; [reflexivity|].
  destruct H as [H|H]; [discriminate|].
  simpl. unfold py_div. destruct (len fdf =? 0) eqn:E;
    [apply Z.eqb_eq in E; contradiction|].
  rewrite IH by now right. reflexivity.
Qed.

Lemma rows_in_category_le k fdf : rows_in_category k fdf <= len fdf.
Proof.
  unfold rows_in_category, len. apply inj_le.
  induction (rows fdf) as [|r l IH]; simpl; [lia|].
  destruct (String.eqb (job_category r) k); simpl; lia.
Qed.

(** X11.  The market-composition loop never divides by zero: for every
    view it yields one line for each of the (at most three) most frequent
    categories, in the order of the category chart, each with the share
    of the view's rows in that category, which is above 0 and at most
    100. *)
Theorem market_composition_total (fdf : DataFrame) :
  exists lines,
    market_composition fdf = Some lines
    /\ map fst lines = firstn 3 (map fst (job_cats fdf))
    /\ (List.length lines <= 3)%nat
    /\ forall cat share, In (cat, share) lines ->
         share = (inject_Z (rows_in_category cat fdf)
                  / inject_Z (len fdf) * 100)%Q
         /\ 0 < rows_in_category cat fdf /\ 0 < len fdf
         /\ (0 <= share /\ share <= 100)%Q.
Proof.
  unfold market_composition.
  set (vc := value_counts String.eqb
               (map (fun r => Some (job_category r)) (rows fdf))).
  set (cats := map fst (head 3 vc)).
  assert (Hcats : forall cat, In cat cats -> 0 < rows_in_category cat fdf).
  { intros cat Hc. unfold cats in Hc. apply in_map_iff in Hc.
    destruct Hc as [[k n] [<- Hin]]. apply head_In in Hin. simpl.
    destruct (value_counts_counts_of String.eqb String.eqb_eq
                (map (fun r => Some (job_category r)) (rows fdf)))
      as [_ [_ Hn]].
    destruct (Hn k n Hin) as [Hocc Hpos].
    rewrite occurrences_rows in Hocc. unfold rows_in_category. lia. }
  assert (Hlen : cats = [] \/ len fdf <> 0).
  { destruct cats as [|cat cats'] eqn:E; [now left|]. right.
    pose proof (Hcats cat (or_introl eq_refl)).
    pose proof (rows_in_category_le cat fdf). lia. }
  eexists. split; [apply market_lines_ok, Hlen|]. split; [|split].
  - rewrite map_map, (map_ext _ (fun x => x)) by reflexivity.
    rewrite map_id. unfold cats, job_cats, head.
    fold vc. rewrite <- !firstn_map, firstn_firstn. reflexivity.
  - rewrite length_map. unfold cats. rewrite length_map. apply head_length_le.
  - intros cat share Hin. apply in_map_iff in Hin.
    destruct Hin as [cat' [[= <- <-] Hc]].
    pose proof (Hcats cat' Hc) as Hpos.
    pose proof (rows_in_category_le cat' fdf) as Hle.
    split; [reflexivity|]. split; [exact Hpos|]. split; [lia|].
    apply share_range; assumption.
Qed.

(** ** Totals of the frequency tables *)

Section CountTotals.
Context {K : Type} (eqb : K -> K -> bool).
Hypothesis eqb_spec : forall x y, eqb x y = true <-> x = y.

Lemma eqb_refl_true x : eqb x x = true.
Proof. now apply eqb_spec. Qed.

Lemma filter_unique (p : K -> bool) (l : list K) :
  filter p (unique eqb l) = unique eqb (filter p l).
Proof.
  induction l as [|y l IH]; simpl; [reflexivity|].
  destruct (p y) eqn:Ep; simpl; rewrite ?Ep.
  - f_equal. rewrite filter_comm, IH. reflexivity.
  - rewrite filter_comm, IH.
    rewrite <- (filter_ext_in (fun _ => true)).
    + clear. induction (unique eqb (filter p l)); simpl; congruence.
    + intros z Hz. apply (unique_In _ eqb_spec), filter_In in Hz.
      destruct Hz as [_ Hz]. destruct (eqb z y) eqn:E; [|reflexivity].
      apply eqb_spec in E. congruence.
Qed.

Lemma count_split x (l : list K) :
  List.length l
  = (List.length (filter (fun y => eqb y x) l)
     + List.length (filter (fun y => negb (eqb y x)) l))%nat.
Proof.
  induction l as [|y l IH]; simpl; [reflexivity|].
  destruct (eqb y x); simpl; lia.
Qed.

Lemma count_in_filter x k (l : list K) :
  eqb k x = false ->
  filter (fun y => eqb y k) (filter (fun y => negb (eqb y x)) l)
  = filter (fun y => eqb y k) l.
Proof.
  intros Hk. rewrite filter_filter_and. apply filter_ext. intros y.
  destruct (eqb y k) eqn:E; [|apply andb_false_r].
  apply eqb_spec in E. subst y. now rewrite Hk.
Qed.

Lemma sum_unique_counts n :
  forall l : list K, (List.length l <= n)%nat ->
    fold_right Z.add 0
      (map (fun k => Z.of_nat (List.length (filter (fun y => eqb y k) l)))
           (unique eqb l))
    = Z.of_nat (List.length l).
Proof.
  induction n as [|n IH]; intros [|x l] Hl; try reflexivity;
    [simpl in Hl; lia|].
  cbn [unique map fold_right filter]. rewrite eqb_refl_true.
  cbn [List.length] in *.
  rewrite filter_unique.
  rewrite (map_ext_in _
             (fun k => Z.of_nat (List.length
                (filter (fun y => eqb y k)
                        (filter (fun y => negb (eqb y x)) l))))).
  - rewrite IH.
    + pose proof (count_split x l). lia.
    + pose proof (count_split x l). lia.
  - intros k Hk. apply (unique_In _ eqb_spec), filter_In in Hk.
    destruct Hk as [_ Hk]. apply negb_true_iff in Hk.
    assert (Hxk : eqb x k = false).
    { destruct (eqb x k) eqn:E; [|reflexivity].
      apply eqb_spec in E. subst. now rewrite eqb_refl_true in Hk. }
    rewrite Hxk. now rewrite (count_in_filter x k l Hk).
Qed.

Lemma occurrences_dropna k (xs : list (option K)) :
  occurrences eqb k xs
  = Z.of_nat (List.length (filter (fun y => eqb y k) (dropna xs))).
Proof.
  unfold occurrences. f_equal.
  induction xs as [|[y|] xs IH]; simpl; [reflexivity| |exact IH].
  destruct (eqb y k); simpl; now rewrite IH.
Qed.

Lemma sum_counts_perm (t t' : list (K * Z)) :
  Permutation t t' -> sum_counts t = sum_counts t'.
Proof.
  unfold sum_counts. induction 1; simpl; lia.
Qed.

Lemma value_counts_total (xs : list (option K)) :
  sum_counts (value_counts eqb xs) = Z.of_nat (List.length (dropna xs)).
Proof.
  unfold value_counts. rewrite (sum_counts_perm _ _ (sort_by_perm _ _)).
  unfold sum_counts. rewrite map_map. simpl.
  rewrite (map_ext _ _ (fun k => occurrences_dropna k xs)).
  now apply (sum_unique_counts (List.length (dropna xs))).
Qed.

Lemma value_counts_nonneg (xs : list (option K)) e :
  In e (value_counts eqb xs) -> 0 <= snd e.
Proof.
  unfold value_counts. rewrite sort_by_In, in_map_iff.
  intros [k [<- _]]. unfold occurrences. simpl. lia.
Qed.
End CountTotals.

Lemma sum_counts_head {K} n (t : list (K * Z)) :
  (forall e, In e t -> 0 <= snd e) ->
  0 <= sum_counts (head n t) /\ sum_counts (head n t) <= sum_counts t.
Proof.
  unfold sum_counts, head. revert n.
  induction t as [|e t IH]; intros n H; [destruct n; simpl; lia|].
  assert (He : 0 <= snd e) by (apply H; now left).
  assert (Ht : forall e', In e' t -> 0 <= snd e') by (intros; apply H; now right).
  destruct n as [|n]; simpl.
  - destruct (IH 0%nat Ht) as [_ H0]. simpl in H0. lia.
  - destruct (IH n Ht). lia.
Qed.

Lemma dropna_length_le {K} (xs : list (option K)) :
  (List.length (dropna xs) <= List.length xs)%nat.
Proof. induction xs as [|[k|] xs IH]; simpl; lia. Qed.

(** X12.  Every posting of a view is counted once in the seniority
    chart: its counts add up to the number of rows.  The counts of the
    category chart, of the company chart and of the experience chart add
    up to at most that number. *)
Theorem frequency_totals (fdf : DataFrame) :
  sum_counts (seniority_dist fdf) = len fdf
  /\ 0 <= sum_counts (job_cats fdf) <= len fdf
  /\ 0 <= sum_counts (top_companies fdf) <= len fdf
  /\ 0 <= sum_counts (exp_dist fdf) <= len fdf.
Proof.
  unfold seniority_dist, job_cats, top_companies, exp_dist, len.
  split; [|split; [|split]].
  - rewrite (value_counts_total _ String.eqb_eq), dropna_map_Some.
    now rewrite length_map.
  - destruct (sum_counts_head 8
                (value_counts String.eqb
                   (map (fun r => Some (job_category r)) (rows fdf))))
      as [H0 H1]; [apply value_counts_nonneg|].
    rewrite (value_counts_total _ String.eqb_eq), dropna_map_Some,
      length_map in H1. lia.
  - destruct (sum_counts_head 15
                (value_counts String.eqb (map company (rows fdf))))
      as [H0 H1]; [apply value_counts_nonneg|].
    rewrite (value_counts_total _ String.eqb_eq) in H1.
    pose proof (dropna_length_le (map company (rows fdf))) as Hd.
    rewrite length_map in Hd. lia.
  - destruct (sum_counts_head 15
                (sort_index Z.leb
                   (value_counts Z.eqb (map min_experience_clean (rows fdf)))))
      as [H0 H1].
    { intros e He. unfold sort_index in He. apply sort_by_In in He.
      revert He. apply value_counts_nonneg. }
    unfold sort_index in H1 at 2.
    rewrite (sum_counts_perm _ _ (sort_by_perm _ _)) in H1.
    rewrite (value_counts_total _ Z_eqb_spec) in H1.
    pose proof (dropna_length_le (map min_experience_clean (rows fdf))) as Hd.
    rewrite length_map in Hd. lia.
Qed.

(** ** The skill dictionary: lookups and repeated names *)

Lemma dict_get_set d k v name :
  dict_get (dict_set d k v) name
  = if String.eqb k name then Some v else dict_get d name.
Proof.
  induction d as [|[k' v'] d IH]; simpl.
  - reflexivity.
  - destruct (String.eqb k' k) eqn:E; simpl.
    + apply String.eqb_eq in E. subst k'.
      now destruct (String.eqb k name).
    + rewrite IH. destruct (String.eqb k' name) eqn:E'; [|reflexivity].
      apply String.eqb_eq in E'. subst k'.
      destruct (String.eqb k name) eqn:E''; [|reflexivity].
      apply String.eqb_eq in E''. subst k.
      rewrite String.eqb_refl in E. discriminate.
Qed.

Lemma dict_get_In d k v :
  NoDup (map fst d) -> In (k, v) d -> dict_get d k = Some v.
Proof.
  induction d as [|[k' v'] d IH]; simpl; [intros _ []|].
  intros Hnd [[= -> ->]|Hin].
  - now rewrite String.eqb_refl.
  - apply NoDup_cons_iff in Hnd. destruct Hnd as [Hni Hnd].
    destruct (String.eqb k' k) eqn:E; [|now apply IH].
    apply String.eqb_eq in E. subst k'. exfalso. apply Hni.
    apply in_map_iff. now exists (k, v).
Qed.

Lemma skill_fold_last fdf (cols : list string) (name : string) :
  match dict_get
          (fold_left
             (fun d col =>
                let count := column_sum col fdf in
                if 0 <? count then dict_set d (skill_name col) count else d)
             cols [])
          name
  with
  | Some n =>
      exists before col after,
        cols = before ++ col :: after
        /\ skill_name col = name /\ n = column_sum col fdf /\ 0 < n
        /\ forall col', In col' after -> skill_name col' = name ->
                        column_sum col' fdf = 0
  | None =>
      forall col, In col cols -> skill_name col = name ->
                  column_sum col fdf = 0
  end.
Proof.
  induction cols as [|c cols IH] using rev_ind.
  - simpl. intros col [].
  - rewrite fold_left_app. cbn [fold_left].
    set (d := fold_left _ cols []) in *.
    assert (Hzero : (0 <? column_sum c fdf) = false -> column_sum c fdf = 0).
    { intros H. apply Z.ltb_ge in H.
      pose proof (column_sum_range c fdf). lia. }
    assert (Hext : forall n,
      (exists before col after,
          cols = before ++ col :: after
          /\ skill_name col = name /\ n = column_sum col fdf /\ 0 < n
          /\ forall col', In col' after -> skill_name col' = name ->
                          column_sum col' fdf = 0) ->
      (skill_name c = name -> column_sum c fdf = 0) ->
      exists before col after,
        cols ++ [c] = before ++ col :: after
        /\ skill_name col = name /\ n = column_sum col fdf /\ 0 < n
        /\ forall col', In col' after -> skill_name col' = name ->
                        column_sum col' fdf = 0).
    { intros n [before [col [after [-> [H1 [H2 [H3 H4]]]]]]] Hc.
      exists before, col, (after ++ [c]).
      split; [now rewrite <- app_assoc|]. split; [exact H1|].
      split; [exact H2|]. split; [exact H3|].
      intros col' Hin Hn. apply in_app_or in Hin.
      destruct Hin as [Hin|[<-|[]]]; [now apply H4 | now apply Hc]. }
    assert (Hnone :
      (forall col, In col cols -> skill_name col = name ->
                   column_sum col fdf = 0) ->
      (skill_name c = name -> column_sum c fdf = 0) ->
      forall col, In col (cols ++ [c]) -> skill_name col = name ->
                  column_sum col fdf = 0).
    { intros H Hc col Hin Hn. apply in_app_or in Hin.
      destruct Hin as [Hin|[<-|[]]]; [now apply H | now apply Hc]. }
    destruct (0 <? column_sum c fdf) eqn:Epos.
    + rewrite dict_get_set.
      destruct (String.eqb (skill_name c) name) eqn:En.
      * apply String.eqb_eq in En. apply Z.ltb_lt in Epos.
        exists cols, c, []. split; [reflexivity|]. split; [exact En|].
        split; [reflexivity|]. split; [exact Epos|]. intros col' [].
      * apply String.eqb_neq in En.
        destruct (dict_get d name) as [n|];
          [apply Hext | apply Hnone]; trivial; intros; contradiction.
    + destruct (dict_get d name) as [n|];
        [apply Hext | apply Hnone]; trivial; intros; now apply Hzero.
Qed.

(** X13.  What the skill dictionary holds under a name: the sum of the
    last skill column with that name whose sum is positive - later
    columns of the same name have no flagged row; and it holds nothing
    under a name exactly when no column of that name has a flagged
    row. *)
Theorem skill_counts_last_wins (fdf : DataFrame) (name : string) :
  match dict_get (skill_counts fdf) name with
  | Some n =>
      exists before col after,
        skill_cols fdf = before ++ col :: after
        /\ skill_name col = name /\ n = column_sum col fdf /\ 0 < n
        /\ forall col', In col' after -> skill_name col' = name ->
                        column_sum col' fdf = 0
  | None =>
      forall col, In col (skill_cols fdf) -> skill_name col = name ->
                  column_sum col fdf = 0
  end.
Proof. apply skill_fold_last. Qed.

Lemma NoDup_firstn {A} n (l : list A) : NoDup l -> NoDup (firstn n l).
Proof.
  intros H. rewrite <- (firstn_skipn n l) in H.
  now apply NoDup_app_remove_r in H.
Qed.

Lemma top_skills_NoDup fdf : NoDup (map fst (top_skills fdf)).
Proof.
  unfold top_skills, head. rewrite <- firstn_map. apply NoDup_firstn.
  apply sort_by_map_NoDup. apply skill_counts_spec.
Qed.

Lemma top_3_In fdf skill :
  In skill (top_3 fdf) -> In skill (map fst (top_skills fdf)).
Proof.
  unfold top_3.
  destruct (3 <=? List.length (map fst (top_skills fdf)))%nat; [|trivial].
  intros H. rewrite <- (firstn_skipn 3). apply in_or_app. now left.
Qed.

Lemma must_have_lines_ok fdf skills :
  (forall s, In s skills -> In s (map fst (top_skills fdf))) ->
  exists lines,
    must_have_lines fdf skills = Some lines
    /\ map fst lines = skills
    /\ forall skill pct, In (skill, pct) lines ->
         exists count,
           In (skill, count) (top_skills fdf)
           /\ pct = (inject_Z count / inject_Z (len fdf) * 100)%Q.
Proof.
  induction skills as [|s skills IH]; intros H.
  - exists []. simpl. split; [reflexivity|]. split; [reflexivity|].
    intros ? ? [].
  - destruct IH as [lines [Hl [Hk Hp]]]; [intros; apply H; now right|].
    assert (Hs : In s (map fst (top_skills fdf))) by (apply H; now left).
    apply in_map_iff in Hs. destruct Hs as [[k n] [Hk' Hin]].
    simpl in Hk'. subst k.
    exists ((s, (inject_Z n / inject_Z (len fdf) * 100)%Q) :: lines).
    simpl. rewrite (dict_get_In _ s n (top_skills_NoDup fdf) Hin), Hl.
    split; [reflexivity|]. split; [now rewrite Hk|].
    intros skill pct [[= <- <-]|Hin']; [now exists n | now apply Hp].
Qed.

(** X14.  The must-have list never fails on a lookup or a division: for
    every view it has one line for each of the first three top skills
    (all of them when there are fewer), and each line gives the count of
    that top skill over the number of rows, times 100, a share above 0
    and at most 100. *)
Theorem must_have_skills_total (fdf : DataFrame) :
  exists lines,
    must_have_skills fdf = Some lines
    /\ map fst lines = firstn 3 (map fst (top_skills fdf))
    /\ forall skill pct, In (skill, pct) lines ->
         exists count,
           In (skill, count) (top_skills fdf)
           /\ pct = (inject_Z count / inject_Z (len fdf) * 100)%Q
           /\ 0 < count /\ count <= len fdf
           /\ (0 <= pct /\ pct <= 100)%Q.
Proof.
  destruct (must_have_lines_ok fdf (top_3 fdf) (top_3_In fdf))
    as [lines [Hl [Hk Hp]]].
  exists lines. split; [exact Hl|]. split.
  - rewrite Hk. unfold top_3.
    destruct (3 <=? List.length (map fst (top_skills fdf)))%nat eqn:E;
      [reflexivity|].
    apply Nat.leb_gt in E. symmetry. apply firstn_all2. lia.
  - intros skill pct Hin. destruct (Hp skill pct Hin) as [count [Hc ->]].
    destruct (top_skills_In fdf (skill, count) Hc) as [_ [Hpos Hle]].
    simpl in Hpos, Hle. exists count. split; [exact Hc|].
    split; [reflexivity|]. split; [exact Hpos|]. split; [exact Hle|].
    now apply share_range.
Qed.

(** ** Skill names *)

Lemma letter_case_not_underscore ch :
  is_lower ch || is_upper ch = true ->
  Ascii.eqb ch "_" = false
  /\ Ascii.eqb (to_upper ch) "_" = false
  /\ Ascii.eqb (to_lower ch) "_" = false.
Proof.
  destruct ch as [[] [] [] [] [] [] [] []]; vm_compute; intros H;
    first [discriminate H | repeat split].
Qed.

Lemma title_from_underscore b s :
  has_char "_" (title_from b s) = has_char "_" s.
Proof.
  revert b. induction s as [|ch s IH]; intros b; simpl; [reflexivity|].
  destruct (is_lower ch || is_upper ch) eqn:E; simpl; rewrite IH.
  - destruct (letter_case_not_underscore ch E) as [H0 [H1 H2]].
    rewrite H0. now destruct b; rewrite ?H1, ?H2.
  - reflexivity.
Qed.

Lemma replace_underscore s :
  has_char "_" (replace "_" " " s) = false.
Proof.
  unfold replace. induction s as [|ch s IH]; [reflexivity|].
  cbn [replace_from String.prefix].
  destruct (ascii_dec "_" ch) as [<-|Hne].
  - destruct s; exact IH.
  - cbn [has_char]. rewrite IH, orb_false_r.
    apply Ascii.eqb_neq. congruence.
Qed.

(** X15.  A displayed skill name never contains an underscore. *)
Theorem skill_name_no_underscore (col : string) :
  has_char "_" (skill_name col) = false.
Proof.
  unfold skill_name, title. rewrite title_from_underscore.
  apply replace_underscore.
Qed.

(** ** The experience trend *)

Lemma sorted_keys_strict (l : list Z) :
  NoDup l -> StronglySorted Z.lt (sort_by Z.leb l).
Proof.
  intros Hnd.
  assert (Hs : StronglySorted (fun a b => (a <=? b) = true) (sort_by Z.leb l)).
  { apply sort_by_sorted.
    - intros a b. rewrite !Z.leb_le. lia.
    - intros a b d. rewrite !Z.leb_le. lia. }
  assert (Hnd' : NoDup (sort_by Z.leb l)).
  { apply (Permutation_NoDup (l := l)); [|exact Hnd].
    symmetry. apply sort_by_perm. }
  induction Hs as [|a t Hs IH Ha]; constructor.
  - apply IH. now inversion Hnd'.
  - apply NoDup_cons_iff in Hnd'. destruct Hnd' as [Hni _].
    rewrite Forall_forall in *. intros b Hb.
    specialize (Ha b Hb). apply Z.leb_le in Ha.
    assert (a <> b) by (intros ->; contradiction). lia.
Qed.

(** X16.  The points of the experience trend of a filtered view are in
    strictly increasing order of experience; every point lies inside the
    selected experience interval and its median salary inside the
    selected salary interval. *)
Theorem exp_salary_ascending (df : DataFrame) (c : FilterCriteria) :
  StronglySorted Z.lt (map fst (exp_salary (filtered_df df c)))
  /\ forall k m, In (k, m) (exp_salary (filtered_df df c)) ->
       fst (exp_range c) <= k /\ k <= snd (exp_range c) /\ k <= 15
       /\ exists q, m = Fin q
            /\ (fst (salary_range c) <= q /\ q <= snd (salary_range c))%Q.
Proof.
  split.
  - unfold exp_salary. rewrite (map_fst_filter (fun k => k <=? 15)).
    apply StronglySorted_filter. rewrite groupby_median_keys.
    unfold group_keys. apply sorted_keys_strict.
    apply unique_NoDup, Z_eqb_spec.
  - intros k m Hin. unfold exp_salary in Hin. apply filter_In in Hin.
    destruct Hin as [Hin Hk]. simpl in Hk. apply Z.leb_le in Hk.
    apply (groupby_median_entry _ _ Z_eqb_spec) in Hin.
    destruct Hin as [Hm [r [Hr Hrk]]].
    destruct (filtered_experience_range df c r k Hr Hrk) as [H1 H2].
    split; [exact H1|]. split; [exact H2|]. split; [exact Hk|].
    assert (Hsub : forall r', In r' (group Z.eqb min_experience_clean k
                                        (filtered_df df c)) ->
                              In r' (rows (filtered_df df c))).
    { intros r' Hr'. apply (group_In _ Z_eqb_spec) in Hr'. tauto. }
    destruct m as [|q].
    + symmetry in Hm. apply (median_rows_NaN df c _ Hsub) in Hm.
      assert (Hg : In r (group Z.eqb min_experience_clean k (filtered_df df c)))
        by (apply (group_In _ Z_eqb_spec); now split).
      rewrite Hm in Hg. contradiction.
    + exists q. split; [reflexivity|].
      apply (median_rows_between df c _ q Hsub). now symmetry.
Qed.

(** ** The header counts *)

Lemma unique_length_le {K} (eqb : K -> K -> bool) (l : list K) :
  (List.length (unique eqb l) <= List.length l)%nat.
Proof.
  induction l as [|x l IH]; simpl; [lia|].
  pose proof (filter_length_le (fun y => negb (eqb y x)) (unique eqb l)). lia.
Qed.

(** X17.  In the header the number of unique companies never exceeds the
    number of jobs of the view, which never exceeds the number of rows
    of the table; the view has as many rows as the table has rows
    passing the filter. *)
Theorem header_counts (df : DataFrame) (c : FilterCriteria) :
  0 <= unique_companies (filtered_df df c)
  /\ unique_companies (filtered_df df c) <= len (filtered_df df c)
  /\ len (filtered_df df c) <= len df
  /\ len (filtered_df df c)
     = Z.of_nat (List.length (filter (full_mask c) (rows df))).
Proof.
  unfold unique_companies, nunique, len. rewrite filtered_df_rows.
  set (l := filter (full_mask c) (rows df)).
  pose proof (unique_length_le String.eqb (dropna (map company l))) as H1.
  pose proof (dropna_length_le (map company l)) as H2.
  rewrite length_map in H2.
  pose proof (filter_length_le (full_mask c) (rows df)) as H3. fold l in H3.
  repeat split; lia.
Qed.

(** ** Rounding of the skill shares *)


(** ** The charts against the criteria *)

Lemma filtered_satisfies df c r :
  In r (rows (filtered_df df c)) -> satisfies c r.
Proof. rewrite filtered_df_rows, filter_In, full_mask_spec. tauto. Qed.

Lemma NoDup_constant {A} (a : A) (l : list A) :
  NoDup l -> (forall x, In x l -> x = a) -> (List.length l <= 1)%nat.
Proof.
  intros Hnd Hall. destruct l as [|x [|y l]]; simpl; try lia.
  exfalso. apply NoDup_cons_iff in Hnd. destruct Hnd as [Hni _].
  apply Hni. left.
  rewrite (Hall x), (Hall y); [reflexivity | right; now left | now left].
Qed.

Lemma group_median_in_range {K} (eqb : K -> K -> bool)
  (eqb_spec : forall x y, eqb x y = true <-> x = y)
  df c (key : Row -> option K) k r :
  In r (rows (filtered_df df c)) -> key r = Some k ->
  exists q,
    median (map avg_salary_lpa (group eqb key k (filtered_df df c))) = Fin q
    /\ (fst (salary_range c) <= q /\ q <= snd (salary_range c))%Q.
Proof.
  intros Hr Hk.
  assert (Hsub : forall r', In r' (group eqb key k (filtered_df df c)) ->
                            In r' (rows (filtered_df df c))).
  { intros r' Hr'. apply (group_In _ eqb_spec) in Hr'. tauto. }
  destruct (median (map avg_salary_lpa (group eqb key k (filtered_df df c))))
    as [|q] eqn:E.
  - apply (median_rows_NaN df c _ Hsub) in E.
    assert (Hg : In r (group eqb key k (filtered_df df c)))
      by (apply (group_In _ eqb_spec); now split).
    rewrite E in Hg. contradiction.
  - exists q. split; [reflexivity|].
    now apply (median_rows_between df c _ q Hsub).
Qed.

(** X19.  The charts of a filtered view show nothing outside the
    criteria: a seniority bar is for the selected level (any level under
    "All") - so there is at most one bar once a level is selected -, a
    category bar or slice is for a selected category, and every median
    shown is a number inside the selected salary interval. *)
Theorem charts_respect_criteria (df : DataFrame) (c : FilterCriteria) :
  let fdf := filtered_df df c in
  (forall s m, In (s, m) (salary_by_seniority fdf) ->
     (selected_seniority c = "All"%string \/ s = selected_seniority c)
     /\ exists q, m = Fin q
          /\ (fst (salary_range c) <= q /\ q <= snd (salary_range c))%Q)
  /\ (selected_seniority c = "All"%string
      \/ (List.length (salary_by_seniority fdf) <= 1)%nat)
  /\ (forall e, In e (cat_salary fdf) ->
        In (cs_job_category e) (selected_categories c)
        /\ exists q, cs_avg_salary_lpa e = Fin q
             /\ (fst (salary_range c) <= q /\ q <= snd (salary_range c))%Q)
  /\ (forall k n, In (k, n) (job_cats fdf) -> In k (selected_categories c)).
Proof.
  intros fdf.
  assert (Hbars : forall s m, In (s, m) (salary_by_seniority fdf) ->
     (selected_seniority c = "All"%string \/ s = selected_seniority c)
     /\ exists q, m = Fin q
          /\ (fst (salary_range c) <= q /\ q <= snd (salary_range c))%Q).
  { intros s m Hin. unfold salary_by_seniority in Hin.
    apply sort_by_In in Hin.
    apply (groupby_median_entry _ _ String.eqb_eq) in Hin.
    destruct Hin as [Hm [r [Hr Hs]]]. injection Hs as Hs. split.
    - destruct (filtered_satisfies df c r Hr) as [_ [_ [_ Hsen]]].
      unfold seniority_ok in Hsen. rewrite Hs in Hsen. exact Hsen.
    - destruct (group_median_in_range String.eqb String.eqb_eq df c
                  (fun r => Some (seniority r)) s r Hr)
        as [q [Hq Hrange]]; [now rewrite Hs|].
      exists q. split; [|exact Hrange]. rewrite Hm. exact Hq. }
  split; [exact Hbars|]. split; [|split].
  - destruct (String.eqb (selected_seniority c) "All") eqn:E;
      [left; now apply String.eqb_eq|].
    right. apply String.eqb_neq in E.
    rewrite <- (length_map fst).
    apply NoDup_constant with (a := selected_seniority c).
    + unfold salary_by_seniority. apply sort_by_map_NoDup.
      rewrite groupby_median_keys. apply group_keys_NoDup, String.eqb_eq.
    + intros s Hs. apply in_map_iff in Hs. destruct Hs as [[s' m] [<- Hin]].
      destruct (Hbars s' m Hin) as [[H|H] _]; [contradiction | exact H].
  - intros e He. unfold cat_salary in He.
    apply head_In, sort_by_In, filter_In in He. destruct He as [He _].
    apply cat_salary_grouped_entry in He.
    destruct He as [Hm [_ [r [Hr Hcat]]]]. split.
    + destruct (filtered_satisfies df c r Hr) as [H _].
      unfold category_ok in H. now rewrite Hcat in H.
    + destruct (group_median_in_range String.eqb String.eqb_eq df c
                  (fun r => Some (job_category r)) (cs_job_category e) r Hr)
        as [q [Hq Hrange]]; [now rewrite Hcat|].
      exists q. split; [|exact Hrange]. rewrite Hm. exact Hq.
  - intros k n Hin. unfold job_cats in Hin. apply head_In in Hin.
    destruct (value_counts_counts_of String.eqb String.eqb_eq
                (map (fun r => Some (job_category r)) (rows fdf)))
      as [_ [Hk _]].
    assert (Hkin : In (Some k) (map (fun r => Some (job_category r)) (rows fdf))).
    { apply Hk, in_map_iff. now exists (k, n). }
    apply in_map_iff in Hkin. destruct Hkin as [r [Hrk Hr]].
    injection Hrk as Hrk.
    destruct (filtered_satisfies df c r Hr) as [H _].
    unfold category_ok in H. now rewrite Hrk in H.
Qed.

(** ** The sign of the growth figure *)

Lemma growth_arith (j s : Q) :
  (0 < j)%Q ->
  ((0 < (s - j) / j * 100 <-> j < s)
   /\ ((s - j) / j * 100 < 0 <-> s < j)
   /\ (0 <= s -> -100 <= (s - j) / j * 100))%Q.
Proof.
  intros Hj.
  assert (Hx : ((s - j) / j * j == s - j)%Q) by (field; lra).
  set (x := ((s - j) / j)%Q) in *.
  repeat split; intros H; nra.
Qed.

(** X20.  Whenever the growth figure is computed, the Junior median it
    divides by is positive, so the figure is positive exactly when the
    Senior median is above the Junior median and negative exactly when
    it is below; with a Senior median that is not negative it is at
    least -100. *)
Theorem growth_pct_sign (fdf : DataFrame) :
  match growth_pct fdf with
  | None => True
  | Some g =>
      exists j s,
        junior_sal fdf = Fin j /\ senior_sal fdf = Fin s
        /\ (0 < j)%Q
        /\ (0 < g <-> j < s)%Q
        /\ (g < 0 <-> s < j)%Q
        /\ (0 <= s -> -100 <= g)%Q
  end.
Proof.
  unfold growth_pct.
  destruct (junior_sal fdf) as [|j]; [exact I|].
  destruct (senior_sal fdf) as [|s]; [exact I|].
  destruct (Qlt_bool 0 j) eqn:E; [|exact I].
  apply Qlt_bool_iff in E. exists j, s.
  split; [reflexivity|]. split; [reflexivity|]. split; [exact E|].
  apply growth_arith. exact E.
Qed.

(** ** Ties among the top skills *)

Lemma insert_by_count_stable (n : Z) (x : string * Z) (l : list (string * Z)) :
  filter (fun e => snd e =? n)
         (insert_by (fun a b => snd b <=? snd a) x l)
  = filter (fun e => snd e =? n) (x :: l).
Proof.
  induction l as [|y l IH]; [reflexivity|].
  cbn [insert_by]. destruct (snd y <=? snd x) eqn:E; [reflexivity|].
  apply Z.leb_gt in E.
  cbn [filter] in *. rewrite IH.
  destruct (snd x =? n) eqn:Ex; [|reflexivity].
  destruct (snd y =? n) eqn:Ey; [|reflexivity].
  apply Z.eqb_eq in Ex, Ey. lia.
Qed.

Lemma sort_by_count_stable (n : Z) (l : list (string * Z)) :
  filter (fun e => snd e =? n) (sort_by (fun a b => snd b <=? snd a) l)
  = filter (fun e => snd e =? n) l.
Proof.
  induction l as [|x l IH]; [reflexivity|].
  cbn [sort_by]. rewrite insert_by_count_stable.
  cbn [filter]. now rewrite IH.
Qed.

(** X21.  Skills with the same count keep the order of the dictionary:
    the top skills are the first 12 of a list in descending order of
    count in which, for every count, the skills with that count stand in
    the order in which the dictionary holds them. *)
Theorem top_skills_ties (fdf : DataFrame) :
  exists full,
    prefix_of 12 (top_skills fdf) full
    /\ by_count_desc full
    /\ forall n, filter (fun e => snd e =? n) full
                 = filter (fun e => snd e =? n) (skill_counts fdf).
Proof.
  exists (sort_by (fun a b => snd b <=? snd a) (skill_counts fdf)).
  split; [apply head_prefix_of|].
  split; [|intros n; apply sort_by_count_stable].
  unfold by_count_desc.
  apply StronglySorted_impl
    with (R := fun a b : string * Z => (snd b <=? snd a) = true).
  - intros a b. apply Z.leb_le.
  - apply sort_by_sorted.
    + intros a b. rewrite !Z.leb_le. lia.
    + intros a b d. rewrite !Z.leb_le. lia.
Qed.
